(** * RailReach: the map helper's colour thresholds and the service worker

    A shallow embedding of [src/assets/js/map-core.js] ([getColor]) and of
    [src/sw.js] (the install, activate and fetch handlers), with the
    properties of the specification stated over it.

    - JavaScript numbers are IEEE 754 binary64 values: [getColor] is
      modelled on Rocq's primitive [float], whose comparison is the one
      JavaScript's [<] performs on numbers (false as soon as an operand is
      NaN).
    - The browser's cache storage, the network and the promise plumbing
      are the host's; they are modelled as an explicit world (the ordered
      list of named caches and the log of network requests) threaded
      through a small promise monad whose computations either fulfil with
      a value or reject.  A listener is run to completion, the work it
      starts without awaiting included; a cache is keyed by request URL,
      the way the cache API matches the GET requests the worker sees. *)

From Stdlib Require Import ZArith Lia Floats.
From stdpp Require Import base option strings list gmap.

(* [set_solver] clears hypotheses it has already consumed. *)
#[local] Set Warnings "-clear-no-such-hyp".

(** ** The map helper: [src/assets/js/map-core.js] *)

Module MapCore.

(** The three marker colours, as the CSS strings of the source. *)
Definition green : string := "#22c55e".
Definition amber : string := "#f59e0b".
Definition red : string := "#ef4444".

(** [function getColor(mins)], lines 10-14. *)
Definition getColor (mins : float) : string :=
  if PrimFloat.ltb mins 30%float then "#22c55e"
  else if PrimFloat.ltb mins 60%float then "#f59e0b"
  else "#ef4444".

End MapCore.

(** ** JavaScript strings *)

Module JsString.

(** [s.startsWith(t)], character by character. *)
Fixpoint startsWith (s t : string) {struct t} : bool :=
  match t, s with
  | EmptyString, _ => true
  | String _ _, EmptyString => false
  | String b t', String a s' => if Ascii.eqb a b then startsWith s' t' else false
  end.

(** [s.includes(t)]: [t] occurs in [s] at some position. *)
Fixpoint includes (s t : string) : bool :=
  if startsWith s t then true
  else match s with
       | EmptyString => false
       | String _ s' => includes s' t
       end.

End JsString.

(** ** The service worker: [src/sw.js] *)

Module ServiceWorker.

(** *** The host: responses, requests, cache storage, network *)

(** A response: its HTTP status, its body, and the field names its
    [Vary] header lists (none when it has no such header).
    [resp.clone()] is the same value. *)
Record Response := mkResponse {
  status : Z;
  body : string;
  vary : list string
}.

(** [resp.ok]: a status in the range 200-299. *)
Definition ok (r : Response) : bool :=
  (200 <=? status r)%Z && (status r <=? 299)%Z.

(** The responses a cache takes.  [cache.put] and [cache.addAll] refuse,
    with a [TypeError], a partial response (status 206) and a response
    whose [Vary] header lists [*]. *)
Definition cacheable (r : Response) : bool :=
  negb (status r =? 206)%Z && negb (bool_decide ("*" ∈ vary r)).

(** The fields of [e.request] the worker reads.  [hostname] is
    [new URL(e.request.url).hostname], computed by the host's URL parser.
    The requests of the model are GET requests over http(s), the ones a
    cache matches and stores; [url] is the URL without its fragment. *)
Record Request := mkRequest {
  url : string;
  hostname : string;
  destination : string
}.

(** One cache: request URL to stored response.  The cache storage is the
    list of named caches in creation order, the order in which
    [caches.keys()] lists them and [caches.match] searches them. *)
Abbreviation Cache := (gmap string Response).
Abbreviation CacheStorage := (list (string * gmap string Response)).

(** The network: the response to a request for a URL, or [None] when the
    request fails (the promise of [fetch] rejects).  Any HTTP status,
    success or not, is a response. *)
Abbreviation Network := (string -> option Response).

(** The world a handler runs in: the cache storage, the URLs requested
    from the network so far (oldest first), and the two lifecycle flags
    set by [self.skipWaiting()] and [self.clients.claim()]. *)
Record World := mkWorld {
  caches : CacheStorage;
  requested : list string;
  skipped_waiting : bool;
  claimed : bool
}.

Definition with_caches (cs : CacheStorage) (w : World) : World :=
  mkWorld cs (requested w) (skipped_waiting w) (claimed w).

Definition with_request (u : string) (w : World) : World :=
  mkWorld (caches w) (requested w ++ [u]) (skipped_waiting w) (claimed w).

(** *** Promises *)

(** A settled promise: fulfilled with a value, or rejected. *)
Inductive Settled (A : Type) : Type :=
  | Fulfilled (a : A)
  | Rejected.
Arguments Fulfilled {A} a.
Arguments Rejected {A}.

(** A promise is run to completion against the world. *)
Definition Promise (A : Type) : Type := World -> Settled A * World.

Definition resolve {A} (a : A) : Promise A := fun w => (Fulfilled a, w).

(** [p.then(f)] *)
Definition then_ {A B} (p : Promise A) (f : A -> Promise B) : Promise B :=
  fun w =>
    match p w with
    | (Fulfilled a, w') => f a w'
    | (Rejected, w') => (Rejected, w')
    end.

(** [p.catch(() => h)] *)
Definition catch {A} (p : Promise A) (h : Promise A) : Promise A :=
  fun w =>
    match p w with
    | (Fulfilled a, w') => (Fulfilled a, w')
    | (Rejected, w') => h w'
    end.

(** A promise that is started and never awaited: its effects happen, its
    outcome is dropped. *)
Definition detached {A} (p : Promise A) : Promise unit :=
  fun w => (Fulfilled tt, snd (p w)).

(** [Promise.all(ps)]: every promise of the array has been started, so all
    of them run; the result rejects as soon as one of them does. *)
Fixpoint all {A} (ps : list (Promise A)) : Promise (list A) :=
  fun w =>
    match ps with
    | [] => (Fulfilled [], w)
    | p :: ps' =>
        let (r, w1) := p w in
        let (rs, w2) := all ps' w1 in
        (match r, rs with
         | Fulfilled a, Fulfilled l => Fulfilled (a :: l)
         | _, _ => Rejected
         end, w2)
    end.

Declare Scope promise_scope.
Delimit Scope promise_scope with promise.
Notation "x <- p ;; k" := (then_ p (fun x => k))
  (at level 100, p at next level, right associativity) : promise_scope.
Local Open Scope promise_scope.

(** [a || p] where [a] is a response or [undefined]: a response object is
    truthy, [undefined] is not. *)
Definition or_else {A} (a : option A) (p : Promise (option A)) : Promise (option A) :=
  match a with
  | Some r => resolve (Some r)
  | None => p
  end.

(** *** Host operations *)

(** [fetch(request)]: one network request. *)
Definition fetch (net : Network) (u : string) : Promise Response :=
  fun w =>
    (match net u with
     | Some r => Fulfilled r
     | None => Rejected
     end, with_request u w).

Definition has_cache (name : string) (cs : CacheStorage) : bool :=
  bool_decide (name ∈ cs.*1).

(** [caches.open(name)]: the cache of that name, created empty (and last)
    when there is none.  The handle is the name. *)
Definition caches_open (name : string) : Promise string :=
  fun w =>
    (Fulfilled name,
     if has_cache name (caches w) then w
     else with_caches (caches w ++ [(name, ∅)]) w).

(** [caches.keys()] *)
Definition caches_keys : Promise (list string) :=
  fun w => (Fulfilled (caches w).*1, w).

(** [caches.delete(name)]: fulfils with whether the cache existed. *)
Definition caches_delete (name : string) : Promise bool :=
  fun w =>
    (Fulfilled (has_cache name (caches w)),
     with_caches (filter (fun e => e.1 ≠ name) (caches w)) w).

(** [caches.match(request)]: the first response stored under the URL, the
    caches searched in creation order; [undefined] when there is none. *)
Fixpoint storage_match (cs : CacheStorage) (u : string) : option Response :=
  match cs with
  | [] => None
  | (_, c) :: cs' =>
      match c !! u with
      | Some r => Some r
      | None => storage_match cs' u
      end
  end.

Definition caches_match (u : string) : Promise (option Response) :=
  fun w => (Fulfilled (storage_match (caches w) u), w).

(** An operation on the cache behind the handle [name]: it acts on the
    cache of that name, the first of them in creation order. *)
Fixpoint storage_update (name : string) (f : gmap string Response -> gmap string Response)
  (cs : CacheStorage) : CacheStorage :=
  match cs with
  | [] => []
  | (n, c) :: cs' =>
      if decide (n = name) then (n, f c) :: cs'
      else (n, c) :: storage_update name f cs'
  end.

(** [cache.put(request, response)]: the entry of the URL is stored,
    replacing the one that was there; a response the cache does not take
    is refused, the promise rejects and nothing is stored. *)
Definition cache_put (name u : string) (r : Response) : Promise unit :=
  fun w =>
    if cacheable r then
      (Fulfilled tt,
       with_caches (storage_update name (fun c => <[u := r]> c) (caches w)) w)
    else (Rejected, w).

(** [cache.addAll(urls)]: every URL is requested; when every request
    succeeds with an [ok] response that the cache takes, all of them are
    stored, in the order of the list, and otherwise the promise rejects
    and nothing is stored. *)
Fixpoint fetch_all_ok (net : Network) (urls : list string)
  : option (list (string * Response)) :=
  match urls with
  | [] => Some []
  | u :: urls' =>
      match net u with
      | Some r =>
          if ok r && cacheable r then
            match fetch_all_ok net urls' with
            | Some l => Some ((u, r) :: l)
            | None => None
            end
          else None
      | None => None
      end
  end.

Definition put_all (l : list (string * Response)) (c : gmap string Response)
  : gmap string Response :=
  fold_left (fun c e => <[e.1 := e.2]> c) l c.

Definition cache_addAll (net : Network) (name : string) (urls : list string)
  : Promise unit :=
  fun w =>
    let w1 := mkWorld (caches w) (requested w ++ urls)
                      (skipped_waiting w) (claimed w) in
    match fetch_all_ok net urls with
    | Some l =>
        (Fulfilled tt, with_caches (storage_update name (put_all l) (caches w1)) w1)
    | None => (Rejected, w1)
    end.

(** The URLs each cache holds, by cache name. *)
Definition cached_urls (cs : CacheStorage) : list (string * gset string) :=
  map (fun e => (e.1, dom e.2)) cs.

(** [self.skipWaiting()] and [self.clients.claim()] *)
Definition skipWaiting (w : World) : World :=
  mkWorld (caches w) (requested w) true (claimed w).

Definition clients_claim (w : World) : World :=
  mkWorld (caches w) (requested w) (skipped_waiting w) true.

(** [e.waitUntil(p)]: the event lasts until [p] settles, and the lifecycle
    step succeeds when [p] fulfils. *)
Definition waitUntil {A} (p : Promise A) : World -> bool * World :=
  fun w =>
    match p w with
    | (Fulfilled _, w') => (true, w')
    | (Rejected, w') => (false, w')
    end.

(** What the page gets for an intercepted request. *)
Inductive Delivered : Type :=
  | Served (r : Response)
  | NetworkError.

(** [e.respondWith(p)]: the page gets the response [p] fulfils with; a
    rejection, or a fulfilment with something that is not a response
    ([undefined]), is a network error for the page. *)
Definition respondWith (p : Promise (option Response))
  : World -> Delivered * World :=
  fun w =>
    match p w with
    | (Fulfilled (Some r), w') => (Served r, w')
    | (Fulfilled None, w') => (NetworkError, w')
    | (Rejected, w') => (NetworkError, w')
    end.

(** *** The worker *)

Definition CACHE_NAME : string := "railreach-v1".

Definition PRECACHE : list string :=
  [ "/";
    "/assets/css/shared.css";
    "/assets/js/stations-data.js";
    "/assets/js/map-core.js";
    "/favicon.svg";
    "/manifest.json" ].

(** The install listener, lines 12-15. *)
Definition on_install (net : Network) : World -> bool * World :=
  fun w =>
    let (done, w') :=
      waitUntil (c <- caches_open CACHE_NAME ;; cache_addAll net c PRECACHE) w in
    (done, skipWaiting w').

(** The activate listener, lines 17-24. *)
Definition on_activate : World -> bool * World :=
  fun w =>
    let (done, w') :=
      waitUntil
        (keys <- caches_keys ;;
         all (map (fun k => caches_delete k)
                  (filter (fun k => k ≠ CACHE_NAME) keys))) w in
    (done, clients_claim w').

(** The three branches of the fetch listener. *)
Definition tile_branch (net : Network) (req : Request) : Promise (option Response) :=
  cached <- caches_match (url req) ;;
  or_else cached
    (resp <- fetch net (url req) ;;
     let clone := resp in
     _ <- detached (c <- caches_open CACHE_NAME ;; cache_put c (url req) clone) ;;
     resolve (Some resp)).

Definition document_branch (net : Network) (req : Request) : Promise (option Response) :=
  catch (resp <- fetch net (url req) ;; resolve (Some resp))
        (r <- caches_match (url req) ;; or_else r (caches_match "/")).

Definition asset_branch (net : Network) (req : Request) : Promise (option Response) :=
  cached <- caches_match (url req) ;;
  or_else cached (resp <- fetch net (url req) ;; resolve (Some resp)).

(** The fetch listener, lines 26-51. *)
Definition on_fetch (net : Network) (req : Request) : World -> Delivered * World :=
  if JsString.includes (hostname req) "tile.openstreetmap.org" then
    respondWith (tile_branch net req)
  else if String.eqb (destination req) "document" then
    respondWith (document_branch net req)
  else
    respondWith (asset_branch net req).

(** *** The events the worker is registered for

    [self.addEventListener] registers the three listeners (lines 12, 17
    and 26); the browser then dispatches install, activate and fetch
    events to them, one after the other in this model, each with the
    network as it is at that time. *)

Inductive Event : Type :=
  | Install (net : Network)
  | Activate
  | Fetch (net : Network) (req : Request).

Definition dispatch (e : Event) (w : World) : World :=
  match e with
  | Install net => (on_install net w).2
  | Activate => (on_activate w).2
  | Fetch net req => (on_fetch net req w).2
  end.

(** The world after a sequence of events, oldest first. *)
Definition run (es : list Event) (w : World) : World :=
  fold_left (fun w e => dispatch e w) es w.

(** The current cache holds a response under the URL. *)
Definition precached (u : string) (cs : CacheStorage) : Prop :=
  exists c, (CACHE_NAME, c) ∈ cs /\ is_Some (c !! u).

End ServiceWorker.

(** ** Sample worlds

    Concrete networks, cache storages and requests on which the
    properties below are also run.  Same-origin URLs are written as the
    precache list writes them. *)

Module Scenario.

Import ServiceWorker.

(** A network that answers every URL with a 200 whose body names it, one
    that is down, and one whose server answers every URL with a 503. *)
Definition online : Network := fun u => Some (mkResponse 200 ("content of " +:+ u) []).
Definition offline : Network := fun _ => None.
Definition unavailable : Network := fun _ => Some (mkResponse 503 "Service Unavailable" []).

Definition home : Response := mkResponse 200 "content of /" [].
Definition london : Response := mkResponse 200 "content of /london/" [].
Definition stylesheet : Response := mkResponse 200 "content of /assets/css/shared.css" [].
Definition tile : Response := mkResponse 200 "png 7/63/42" [].

(** Before the first install. *)
Definition fresh : World := mkWorld [] [] false false.

(** After a first install against [online]. *)
Definition installed : World := (on_install online fresh).2.

(** A current cache holding the root page, one page, one stylesheet and
    one tile, next to the cache of an older version. *)
Definition browsing : World :=
  mkWorld
    [ ("railreach-v0", {[ "/" := mkResponse 200 "old home" [] ]});
      ("railreach-v1",
       {[ "/" := home;
          "/london/" := london;
          "/assets/css/shared.css" := stylesheet;
          "https://tile.openstreetmap.org/7/63/42.png" := tile ]}) ]
    [] true true.

(** A current cache that was opened and never filled. *)
Definition unfilled : World := mkWorld [("railreach-v1", ∅)] [] true true.

Definition tile_request : Request :=
  mkRequest "https://tile.openstreetmap.org/7/63/42.png" "tile.openstreetmap.org" "image".

Definition other_tile_request : Request :=
  mkRequest "https://a.tile.openstreetmap.org/7/63/43.png" "a.tile.openstreetmap.org" "image".

(** A document on a host that only contains the provider's name. *)
Definition lookalike_request : Request :=
  mkRequest "https://tile.openstreetmap.org.example.com/"
            "tile.openstreetmap.org.example.com" "document".

Definition london_request : Request := mkRequest "/london/" "railreach.example" "document".
Definition york_request : Request := mkRequest "/york/" "railreach.example" "document".
Definition stylesheet_request : Request :=
  mkRequest "/assets/css/shared.css" "railreach.example" "style".
Definition script_request : Request :=
  mkRequest "/assets/js/extra.js" "railreach.example" "script".

(** A server that answers every URL with a partial response, and one
    whose responses are marked [Vary: *]. *)
Definition partial_content : Network :=
  fun _ => Some (mkResponse 206 "first bytes" []).
Definition varying : Network :=
  fun _ => Some (mkResponse 200 "negotiated" ["*"]).

(** A server that answers everything but the manifest. *)
Definition manifest_missing : Network :=
  fun u => if String.eqb u "/manifest.json"
           then Some (mkResponse 404 "Not Found" [])
           else Some (mkResponse 200 ("content of " +:+ u) []).

(** An evening of use after the first install: activation, a page and a
    tile with the network up, an update that fails, then a tile and a
    page with the network down. *)
Definition evening : list Event :=
  [ Activate;
    Fetch online london_request;
    Fetch online other_tile_request;
    Install unavailable;
    Fetch offline tile_request;
    Fetch offline york_request ].

End Scenario.

(** * Properties *)

(** ** Order of binary64 values *)

Section FloatOrder.

Local Open Scope float_scope.

(** On the specification floats, [a <= b] excludes [b < a]. *)
Lemma SFleb_not_SFltb (a b : spec_float) :
  SFleb a b = true -> SFltb b a = false.
Proof.
  unfold SFleb, SFltb.
  destruct a as [sa|sa| |sa ma ea], b as [sb|sb| |sb mb eb]; simpl;
    try (destruct sa); try (destruct sb); simpl; try congruence.
  - rewrite (Z.compare_antisym ea eb).
    destruct (ea ?= eb)%Z; simpl; try congruence.
    pose proof (Pos.compare_cont_antisym ma mb Eq) as HA; simpl in HA.
    rewrite <- HA.
    destruct (Pos.compare_cont Eq ma mb); simpl; congruence.
  - rewrite (Z.compare_antisym ea eb).
    destruct (ea ?= eb)%Z; simpl; try congruence.
    pose proof (Pos.compare_cont_antisym ma mb Eq) as HA; simpl in HA.
    rewrite <- HA.
    destruct (Pos.compare_cont Eq ma mb); simpl; congruence.
Qed.

Lemma leb_not_ltb (x y : float) : (x <=? y) = true -> (y <? x) = false.
Proof. rewrite leb_spec, ltb_spec. apply SFleb_not_SFltb. Qed.

(** 30 and 60 as specification floats: the same mantissa, one exponent
    apart. *)
Lemma Prim2SF_30 : Prim2SF 30 = S754_finite false 8444249301319680 (-48).
Proof. reflexivity. Qed.

Lemma Prim2SF_60 : Prim2SF 60 = S754_finite false 8444249301319680 (-47).
Proof. reflexivity. Qed.

(** Two positive values with the same mantissa, the first with the
    smaller exponent: what is at least the second is not below the
    first. *)
Lemma SFleb_not_SFltb_below (mant : positive) (e1 e2 : Z) (x : spec_float) :
  (e1 < e2)%Z ->
  SFleb (S754_finite false mant e2) x = true ->
  SFltb x (S754_finite false mant e1) = false.
Proof.
  intros He. unfold SFleb, SFltb, SFcompare.
  destruct x as [s|s| |s mx ex]; try (destruct s); try congruence.
  destruct (Z.compare_spec e2 ex) as [E|E|E]; try congruence.
  - subst ex. intros _.
    destruct (Z.compare_spec e2 e1) as [E'|E'|E']; try lia; reflexivity.
  - intros _.
    destruct (Z.compare_spec ex e1) as [E'|E'|E']; try lia; reflexivity.
Qed.

(** A value that is at least 60 is not below 30. *)
Lemma leb_60_not_ltb_30 (m : float) : (60 <=? m) = true -> (m <? 30) = false.
Proof.
  rewrite leb_spec, ltb_spec, Prim2SF_30, Prim2SF_60.
  apply SFleb_not_SFltb_below. lia.
Qed.

End FloatOrder.

(** ** The colour thresholds *)

Section GetColor.

Import MapCore.
Local Open Scope float_scope.

(* A decimal literal denotes the nearest binary64 value, in JavaScript
   as here. *)
#[local] Set Warnings "-inexact-float".

Example getColor_0 : getColor 0 = green.
Proof. reflexivity. Qed.

Example getColor_29_999 : getColor 29.999 = green.
Proof. reflexivity. Qed.

Example getColor_59_999 : getColor 59.999 = amber.
Proof. reflexivity. Qed.

Example getColor_neg_infinity : getColor neg_infinity = green.
Proof. reflexivity. Qed.

Example getColor_infinity : getColor infinity = red.
Proof. reflexivity. Qed.

(** NaN is below nothing: both tests fail and the last colour is
    returned. *)
Example getColor_nan : getColor nan = red.
Proof. reflexivity. Qed.

Lemma getColor_green (m : float) : (m <? 30) = true -> getColor m = green.
Proof. unfold getColor. intros ->. reflexivity. Qed.

Lemma getColor_amber (m : float) :
  (30 <=? m) = true -> (m <? 60) = true -> getColor m = amber.
Proof.
  unfold getColor. intros H30 ->.
  rewrite (leb_not_ltb _ _ H30). reflexivity.
Qed.

Lemma getColor_red (m : float) : (60 <=? m) = true -> getColor m = red.
Proof.
  unfold getColor. intros H60.
  rewrite (leb_60_not_ltb_30 _ H60), (leb_not_ltb _ _ H60). reflexivity.
Qed.

(** C3: [getColor] is a function of its argument alone, and over every
    binary64 value [m] it returns green when [m < 30], amber when
    [30 <= m < 60] and red when [60 <= m]; at the boundaries,
    [getColor 30] is amber and [getColor 60] is red. *)
Theorem getColor_thresholds (m : float) :
  ((m <? 30) = true -> getColor m = green) /\
  ((30 <=? m) = true -> (m <? 60) = true -> getColor m = amber) /\
  ((60 <=? m) = true -> getColor m = red) /\
  getColor 30 = amber /\
  getColor 60 = red.
Proof.
  split; [apply getColor_green|].
  split; [apply getColor_amber|].
  split; [apply getColor_red|].
  split; reflexivity.
Qed.

Lemma getColor_thresholds_witness :
  getColor 12.5 = green /\ getColor 45 = amber /\ getColor 1e3 = red.
Proof.
  split; [|split].
  - apply (proj1 (getColor_thresholds 12.5)). reflexivity.
  - apply (proj1 (proj2 (getColor_thresholds 45))); reflexivity.
  - apply (proj1 (proj2 (proj2 (getColor_thresholds 1e3)))). reflexivity.
Defined.

End GetColor.

(** ** Substring search *)

Section Includes.

Import JsString.

Lemma append_nil (b : string) : "" +:+ b = b.
Proof. reflexivity. Qed.

Lemma append_cons (c : Ascii.ascii) (t b : string) :
  String c t +:+ b = String c (t +:+ b).
Proof. reflexivity. Qed.

Lemma startsWith_spec (s t : string) :
  startsWith s t = true <-> exists b, s = t +:+ b.
Proof.
  revert s. induction t as [|c t IH]; intros s; simpl.
  - split; [intros _; exists s; reflexivity | reflexivity].
  - destruct s as [|a s].
    + split; [discriminate | intros [b Hb]; discriminate].
    + destruct (Ascii.eqb_spec a c) as [->|Hne].
      * rewrite IH. split; intros [b Hb]; exists b.
        -- rewrite append_cons. congruence.
        -- rewrite append_cons in Hb. congruence.
      * split; [discriminate|].
        intros [b Hb]. rewrite append_cons in Hb. congruence.
Qed.

(** [s.includes(t)] holds exactly when [t] occurs somewhere inside [s]. *)
Lemma includes_spec (s t : string) :
  includes s t = true <-> exists a b, s = a +:+ t +:+ b.
Proof.
  induction s as [|c s IH]; simpl.
  - destruct (startsWith "" t) eqn:E.
    + apply startsWith_spec in E as [b Hb].
      split; [intros _; exists "", b; exact Hb | reflexivity].
    + split; [discriminate|].
      intros [a [b Hab]]. destruct a as [|? ?]; [|discriminate].
      rewrite append_nil in Hab.
      assert (startsWith "" t = true) by (apply startsWith_spec; eauto).
      congruence.
  - destruct (startsWith (String c s) t) eqn:E.
    + apply startsWith_spec in E as [b Hb].
      split; [intros _; exists "", b; exact Hb | reflexivity].
    + rewrite IH. split.
      * intros [a [b Hab]]. exists (String c a), b.
        rewrite append_cons. congruence.
      * intros [a [b Hab]]. destruct a as [|c' a].
        -- rewrite append_nil in Hab.
           assert (startsWith (String c s) t = true)
             by (apply startsWith_spec; eauto).
           congruence.
        -- rewrite append_cons in Hab. exists a, b. congruence.
Qed.

Example includes_exact :
  includes "tile.openstreetmap.org" "tile.openstreetmap.org" = true.
Proof. reflexivity. Qed.

Example includes_subdomain :
  includes "a.tile.openstreetmap.org" "tile.openstreetmap.org" = true.
Proof. reflexivity. Qed.

Example includes_foreign_suffix :
  includes "tile.openstreetmap.org.example.com" "tile.openstreetmap.org" = true.
Proof. reflexivity. Qed.

Example includes_other_host :
  includes "railreach.example" "tile.openstreetmap.org" = false.
Proof. reflexivity. Qed.

End Includes.

(** ** The cache storage *)

Section Storage.

Import ServiceWorker.

Implicit Types (cs : CacheStorage) (c : gmap string Response)
  (name u : string) (r : Response) (w : World).

Lemma storage_update_names name f cs : (storage_update name f cs).*1 = cs.*1.
Proof.
  induction cs as [|[n c] cs IH]; csimpl; [reflexivity|].
  destruct (decide (n = name)); csimpl; congruence.
Qed.

Lemma storage_update_twice name f g cs :
  storage_update name f (storage_update name g cs)
  = storage_update name (fun c => f (g c)) cs.
Proof.
  induction cs as [|[n c] cs IH]; simpl; [reflexivity|].
  destruct (decide (n = name)) as [E|E]; simpl;
    destruct (decide (n = name)); congruence.
Qed.

Lemma storage_update_ext name f g cs :
  (forall c, f c = g c) -> storage_update name f cs = storage_update name g cs.
Proof.
  intros H. induction cs as [|[n c] cs IH]; simpl; [reflexivity|].
  destruct (decide (n = name)); congruence.
Qed.

Lemma storage_update_elem name f cs :
  name ∈ cs.*1 -> exists c, (name, f c) ∈ storage_update name f cs.
Proof.
  induction cs as [|[n c] cs IH]; simpl; intros H.
  - inversion H.
  - destruct (decide (n = name)) as [->|E].
    + exists c. left.
    + apply elem_of_cons in H as [H|H]; [congruence|].
      destruct (IH H) as [c' Hc']. exists c'. right. exact Hc'.
Qed.

Lemma cached_urls_update_ext name f g cs :
  (forall c, dom (f c) = dom (g c)) ->
  cached_urls (storage_update name f cs) = cached_urls (storage_update name g cs).
Proof.
  intros H. unfold cached_urls.
  induction cs as [|[n c] cs IH]; simpl; [reflexivity|].
  destruct (decide (n = name)); simpl; congruence.
Qed.

Lemma storage_match_app cs cs' u :
  storage_match (cs ++ cs') u
  = match storage_match cs u with
    | Some r => Some r
    | None => storage_match cs' u
    end.
Proof.
  induction cs as [|[n c] cs IH]; simpl; [reflexivity|].
  destruct (c !! u); [reflexivity | exact IH].
Qed.

(** After a miss everywhere, the entry put in a cache is the one
    [caches.match] finds. *)
Lemma storage_match_put name u r cs :
  storage_match cs u = None ->
  name ∈ cs.*1 ->
  storage_match (storage_update name (fun c => <[u := r]> c) cs) u = Some r.
Proof.
  induction cs as [|[n c] cs IH]; simpl; intros Hm Hin.
  - inversion Hin.
  - destruct (c !! u) eqn:Ec; [discriminate|].
    destruct (decide (n = name)) as [->|E]; simpl.
    + rewrite lookup_insert_eq. reflexivity.
    + rewrite Ec. apply IH; [exact Hm|].
      apply elem_of_cons in Hin as [Hin|Hin]; [congruence | exact Hin].
Qed.

(** [caches.open] leaves a cache of the name in the storage and stores
    no response. *)
Lemma caches_open_names name w :
  name ∈ (caches (caches_open name w).2).*1.
Proof.
  unfold caches_open, has_cache; simpl.
  destruct (bool_decide_reflect (name ∈ (caches w).*1)) as [H|H]; simpl.
  - exact H.
  - rewrite fmap_app. apply elem_of_app. right. simpl. left.
Qed.

Lemma caches_open_match name w u :
  storage_match (caches (caches_open name w).2) u = storage_match (caches w) u.
Proof.
  unfold caches_open, has_cache; simpl.
  destruct (bool_decide (name ∈ (caches w).*1)); simpl; [reflexivity|].
  rewrite storage_match_app. simpl. rewrite lookup_empty.
  destruct (storage_match (caches w) u); reflexivity.
Qed.

Lemma caches_open_requested name w :
  requested (caches_open name w).2 = requested w.
Proof.
  unfold caches_open; simpl. destruct (has_cache name (caches w)); reflexivity.
Qed.

Lemma caches_open_present name w :
  name ∈ (caches w).*1 -> (caches_open name w).2 = w.
Proof.
  intros H. unfold caches_open, has_cache; simpl.
  rewrite bool_decide_eq_true_2 by exact H. reflexivity.
Qed.

(** After a miss everywhere, no cache holds an entry of the URL. *)
Lemma storage_match_None_elem cs n c u :
  storage_match cs u = None -> (n, c) ∈ cs -> c !! u = None.
Proof.
  induction cs as [|[n0 c0] cs IH]; simpl; intros Hm Hin.
  - inversion Hin.
  - destruct (c0 !! u) eqn:E0; [discriminate|].
    apply elem_of_cons in Hin as [Hin|Hin]; [congruence | exact (IH Hm Hin)].
Qed.

Lemma cache_put_requested name u r w :
  requested (cache_put name u r w).2 = requested w.
Proof. unfold cache_put. destruct (cacheable r); reflexivity. Qed.

(** [cache.put] stores the response when the cache takes it, and leaves
    the storage alone when it does not. *)
Lemma cache_put_caches name u r w :
  caches (cache_put name u r w).2
  = if cacheable r
    then storage_update name (fun c => <[u := r]> c) (caches w)
    else caches w.
Proof. unfold cache_put. destruct (cacheable r); reflexivity. Qed.

Lemma cache_put_flags name u r w :
  skipped_waiting (cache_put name u r w).2 = skipped_waiting w
  /\ claimed (cache_put name u r w).2 = claimed w.
Proof. unfold cache_put. destruct (cacheable r); split; reflexivity. Qed.

(** The responses the cache takes are those that are neither partial nor
    marked [Vary: *]. *)
Lemma cacheable_spec r :
  cacheable r = true <-> status r ≠ 206%Z /\ "*" ∉ vary r.
Proof.
  unfold cacheable. rewrite andb_true_iff, !negb_true_iff, Z.eqb_neq.
  rewrite bool_decide_eq_false. reflexivity.
Qed.

Lemma not_cacheable_spec r :
  cacheable r = false <-> status r = 206%Z \/ "*" ∈ vary r.
Proof.
  unfold cacheable. rewrite andb_false_iff, !negb_false_iff, Z.eqb_eq.
  rewrite bool_decide_eq_true. reflexivity.
Qed.

(** A response with an error status is one the cache takes, unless it is
    marked [Vary: *]: 206 is a success status. *)
Lemma error_status_cacheable r :
  ok r = false -> "*" ∉ vary r -> cacheable r = true.
Proof.
  intros Hok Hv. apply cacheable_spec. split; [|exact Hv].
  intros E. unfold ok in Hok. rewrite E in Hok. discriminate.
Qed.

End Storage.

(** ** The fetch listener *)

Section Fetch.

Import ServiceWorker.

Implicit Types (net : Network) (req : Request) (w : World) (r : Response).

(** The requests the three branches are chosen for. *)
Lemma on_fetch_tile net req :
  JsString.includes (hostname req) "tile.openstreetmap.org" = true ->
  on_fetch net req = respondWith (tile_branch net req).
Proof. unfold on_fetch. intros ->. reflexivity. Qed.

Lemma on_fetch_document net req :
  JsString.includes (hostname req) "tile.openstreetmap.org" = false ->
  destination req = "document" ->
  on_fetch net req = respondWith (document_branch net req).
Proof. unfold on_fetch. intros -> ->. reflexivity. Qed.

Lemma on_fetch_asset net req :
  JsString.includes (hostname req) "tile.openstreetmap.org" = false ->
  destination req <> "document" ->
  on_fetch net req = respondWith (asset_branch net req).
Proof.
  unfold on_fetch. intros -> H.
  destruct (String.eqb_spec (destination req) "document"); [contradiction|].
  reflexivity.
Qed.

(** The tile branch on a hit: the cached response, the world as it was. *)
Lemma tile_branch_hit net req w r :
  storage_match (caches w) (url req) = Some r ->
  respondWith (tile_branch net req) w = (Served r, w).
Proof.
  intros H. unfold respondWith, tile_branch, then_, caches_match, or_else, resolve.
  rewrite H. reflexivity.
Qed.

(** The tile branch on a miss answered by the network: the network
    response, one network request, and the response put in the current
    cache. *)
Lemma tile_branch_miss net req w r :
  storage_match (caches w) (url req) = None ->
  net (url req) = Some r ->
  respondWith (tile_branch net req) w
  = (Served r,
     (cache_put CACHE_NAME (url req) r
        (caches_open CACHE_NAME (with_request (url req) w)).2).2).
Proof.
  intros Hm Hn.
  unfold respondWith, tile_branch, then_, caches_match, or_else, resolve,
    detached, fetch.
  rewrite Hm, Hn. simpl. reflexivity.
Qed.

(** The world after a tile refill, when the cache takes the response:
    [caches.match] finds it under the URL, in the current cache. *)
Lemma refill_stored req r w :
  cacheable r = true ->
  storage_match (caches w) (url req) = None ->
  let w' := (cache_put CACHE_NAME (url req) r
               (caches_open CACHE_NAME (with_request (url req) w)).2).2 in
  storage_match (caches w') (url req) = Some r /\
  exists c, (CACHE_NAME, c) ∈ caches w' /\ c !! url req = Some r.
Proof.
  intros Hc Hm. cbv zeta. rewrite cache_put_caches, Hc. split.
  - apply storage_match_put; [|apply caches_open_names].
    rewrite caches_open_match. exact Hm.
  - destruct (storage_update_elem CACHE_NAME (fun c => <[url req := r]> c)
                (caches (caches_open CACHE_NAME (with_request (url req) w)).2)
                (caches_open_names _ _)) as [c Hin].
    exists (<[url req := r]> c). split; [exact Hin | apply lookup_insert_eq].
Qed.

(** The world after a tile refill, when the cache refuses the response:
    [caches.match] finds under every URL what it found before. *)
Lemma refill_refused req r w u :
  cacheable r = false ->
  storage_match
    (caches (cache_put CACHE_NAME (url req) r
               (caches_open CACHE_NAME (with_request (url req) w)).2).2) u
  = storage_match (caches w) u.
Proof.
  intros Hc. rewrite cache_put_caches, Hc, caches_open_match. reflexivity.
Qed.

(** C2, amended: a request whose host matches the tile provider is served
    cache-first with refill.  When a cached response for the request
    exists it is returned, nothing is requested from the network and the
    world is unchanged.  When there is none and the network answers, the
    network response is returned and exactly one request has gone to the
    network; the current cache then holds a copy under the request's URL
    unless the response is one a cache refuses, a partial response
    (status 206) or one marked [Vary: *], in which case nothing is
    stored. *)
Theorem tile_cache_first_refill net req w :
  JsString.includes (hostname req) "tile.openstreetmap.org" = true ->
  (forall r, storage_match (caches w) (url req) = Some r ->
     on_fetch net req w = (Served r, w)) /\
  (forall r, storage_match (caches w) (url req) = None ->
     net (url req) = Some r ->
     exists w', on_fetch net req w = (Served r, w') /\
       requested w' = requested w ++ [url req] /\
       (status r ≠ 206%Z -> "*" ∉ vary r ->
          exists c, (CACHE_NAME, c) ∈ caches w' /\ c !! url req = Some r) /\
       (status r = 206%Z \/ "*" ∈ vary r ->
          forall u, storage_match (caches w') u = storage_match (caches w) u)).
Proof.
  intros Ht. rewrite (on_fetch_tile net req Ht). split.
  - intros r. apply tile_branch_hit.
  - intros r Hm Hn. eexists. split; [apply tile_branch_miss; assumption|].
    split; [|split].
    + rewrite cache_put_requested, caches_open_requested. reflexivity.
    + intros Hs Hv.
      apply (refill_stored req r w); [|exact Hm].
      apply cacheable_spec. split; assumption.
    + intros Hr u. apply refill_refused. apply not_cacheable_spec. exact Hr.
Qed.

(** C10, amended: on a miss in the tile branch the worker hands the
    network response to the cache whatever its status.  The cache keeps
    it unless it is a partial response (status 206) or is marked
    [Vary: *]; an error status is no obstacle.  A response that is kept
    answers the same request from then on, the world unchanged: nothing
    is requested from the network, whatever it would have answered.  A
    response that is refused is not kept, and the same request goes to
    the network again. *)
Theorem tile_refill_kept_unless_refused net net' req w r :
  JsString.includes (hostname req) "tile.openstreetmap.org" = true ->
  storage_match (caches w) (url req) = None ->
  net (url req) = Some r ->
  let w' := (on_fetch net req w).2 in
  (status r ≠ 206%Z -> "*" ∉ vary r ->
     storage_match (caches w') (url req) = Some r /\
     on_fetch net' req w' = (Served r, w')) /\
  (status r = 206%Z \/ "*" ∈ vary r ->
     storage_match (caches w') (url req) = None /\
     requested (on_fetch net' req w').2 = requested w' ++ [url req] /\
     (on_fetch net' req w').1
     = match net' (url req) with
       | Some r' => Served r'
       | None => NetworkError
       end).
Proof.
  intros Ht Hm Hn w'.
  assert (Hw : w' = (cache_put CACHE_NAME (url req) r
                       (caches_open CACHE_NAME (with_request (url req) w)).2).2).
  { subst w'. rewrite (on_fetch_tile net req Ht), (tile_branch_miss net req w r Hm Hn).
    reflexivity. }
  split.
  - intros Hs Hv.
    assert (Hk : storage_match (caches w') (url req) = Some r).
    { rewrite Hw. apply (refill_stored req r w); [|exact Hm].
      apply cacheable_spec. split; assumption. }
    split; [exact Hk|].
    rewrite (on_fetch_tile net' req Ht). apply tile_branch_hit. exact Hk.
  - intros Hr.
    assert (Hk : storage_match (caches w') (url req) = None).
    { rewrite Hw, refill_refused; [exact Hm|]. apply not_cacheable_spec. exact Hr. }
    split; [exact Hk|].
    rewrite (on_fetch_tile net' req Ht).
    destruct (net' (url req)) as [r'|] eqn:Hn'.
    + rewrite (tile_branch_miss net' req w' r' Hk Hn'). cbn [fst snd].
      rewrite cache_put_requested, caches_open_requested. split; reflexivity.
    + unfold respondWith, tile_branch, then_, caches_match, or_else, fetch.
      rewrite Hk, Hn'. split; reflexivity.
Qed.

(** C9: the tile branch is chosen by substring.  A request whose
    hostname contains [tile.openstreetmap.org] anywhere goes to the tile
    branch, whatever its destination: the test comes before the
    document and asset branches. *)
Theorem tile_dispatch_by_substring net req :
  (exists a b, hostname req = a +:+ "tile.openstreetmap.org" +:+ b) ->
  on_fetch net req = respondWith (tile_branch net req).
Proof.
  intros H. apply on_fetch_tile. apply includes_spec. exact H.
Qed.

(** The document branch, in full. *)
Lemma document_branch_run net req w :
  respondWith (document_branch net req) w
  = (match net (url req) with
     | Some r => Served r
     | None =>
         match storage_match (caches w) (url req) with
         | Some r => Served r
         | None =>
             match storage_match (caches w) "/" with
             | Some r => Served r
             | None => NetworkError
             end
         end
     end, with_request (url req) w).
Proof.
  unfold respondWith, document_branch, catch, then_, fetch, caches_match,
    or_else, resolve.
  destruct (net (url req)); simpl; [reflexivity|].
  destruct (storage_match (caches w) (url req)); simpl; [reflexivity|].
  destruct (storage_match (caches w) "/"); reflexivity.
Qed.

(** C1: a top-level document request to a host other than the tile
    provider goes to the network first: exactly one request is made and
    the cache storage is not touched.  The network response is returned
    when there is one; when the request fails, the cached entry of the
    request's URL is returned if there is one, and else the cached root
    page. *)
Theorem document_network_first net req w :
  JsString.includes (hostname req) "tile.openstreetmap.org" = false ->
  destination req = "document" ->
  exists d w', on_fetch net req w = (d, w') /\
    requested w' = requested w ++ [url req] /\
    caches w' = caches w /\
    (forall r, net (url req) = Some r -> d = Served r) /\
    (net (url req) = None ->
       (forall r, storage_match (caches w) (url req) = Some r -> d = Served r) /\
       (forall r, storage_match (caches w) (url req) = None ->
          storage_match (caches w) "/" = Some r -> d = Served r)).
Proof.
  intros Ht Hd. rewrite (on_fetch_document net req Ht Hd), document_branch_run.
  eexists _, _. split; [reflexivity|].
  split; [reflexivity|]. split; [reflexivity|]. split.
  - intros r ->. reflexivity.
  - intros ->. split.
    + intros r ->. reflexivity.
    + intros r -> ->. reflexivity.
Qed.

(** C7: when a document request fails on the network and the cache
    storage holds neither an entry for its URL nor the root page, the
    page gets a network error: no response is made up. *)
Theorem document_failure_propagates net req w :
  JsString.includes (hostname req) "tile.openstreetmap.org" = false ->
  destination req = "document" ->
  net (url req) = None ->
  storage_match (caches w) (url req) = None ->
  storage_match (caches w) "/" = None ->
  (on_fetch net req w).1 = NetworkError.
Proof.
  intros Ht Hd Hn Hm Hroot.
  rewrite (on_fetch_document net req Ht Hd), document_branch_run.
  rewrite Hn, Hm, Hroot. reflexivity.
Qed.

(** The asset branch, in full. *)
Lemma asset_branch_run net req w :
  respondWith (asset_branch net req) w
  = match storage_match (caches w) (url req) with
    | Some r => (Served r, w)
    | None =>
        (match net (url req) with
         | Some r => Served r
         | None => NetworkError
         end, with_request (url req) w)
    end.
Proof.
  unfold respondWith, asset_branch, then_, fetch, caches_match, or_else, resolve.
  destruct (storage_match (caches w) (url req)); simpl; [reflexivity|].
  destruct (net (url req)); reflexivity.
Qed.

(** C8: any other request (not to the tile provider, not a document) is
    served cache-first without refill.  A cached copy is returned with
    no network request; without one the request goes to the network
    once and its outcome is what the page gets; in both cases the cache
    storage is left as it was. *)
Theorem asset_cache_first_no_refill net req w :
  JsString.includes (hostname req) "tile.openstreetmap.org" = false ->
  destination req <> "document" ->
  exists d w', on_fetch net req w = (d, w') /\
    caches w' = caches w /\
    (forall r, storage_match (caches w) (url req) = Some r ->
       d = Served r /\ w' = w) /\
    (storage_match (caches w) (url req) = None ->
       requested w' = requested w ++ [url req] /\
       d = match net (url req) with
           | Some r => Served r
           | None => NetworkError
           end).
Proof.
  intros Ht Hd. rewrite (on_fetch_asset net req Ht Hd), asset_branch_run.
  destruct (storage_match (caches w) (url req)) as [r0|];
    eexists _, _; (split; [reflexivity|]); (split; [reflexivity|]); split.
  - intros r [= ->]. split; reflexivity.
  - discriminate.
  - discriminate.
  - intros _. split; reflexivity.
Qed.

End Fetch.

(** ** The install listener *)

Section Install.

Import ServiceWorker.

Implicit Types (net : Network) (w : World) (c : gmap string Response)
  (l : list (string * Response)).

(** What [addAll] stores is what the network answered, in the order of
    the list of URLs. *)
Lemma fetch_all_ok_Some net urls l :
  fetch_all_ok net urls = Some l ->
  l.*1 = urls /\ Forall (fun e => net e.1 = Some e.2 /\ ok e.2 = true) l.
Proof.
  revert l. induction urls as [|u urls IH]; simpl; intros l H.
  - injection H as <-. split; [reflexivity | constructor].
  - destruct (net u) as [r|] eqn:En; [|discriminate].
    destruct (ok r) eqn:Eok; [|discriminate].
    destruct (cacheable r); [|discriminate]. cbn [andb] in H.
    destruct (fetch_all_ok net urls) as [l'|]; [|discriminate].
    injection H as <-. destruct (IH l' eq_refl) as [H1 H2].
    split; [csimpl; congruence|].
    constructor; [split; assumption | exact H2].
Qed.

(** Storing a batch is a union: the batch wins over what the cache held,
    and inside the batch the later entry wins. *)
Lemma put_all_union l c : put_all l c = list_to_map (reverse l) ∪ c.
Proof.
  unfold put_all. revert c. induction l as [|[u r] l IH]; intros c; simpl.
  - rewrite (left_id_L ∅ (∪)). reflexivity.
  - rewrite IH, reverse_cons, list_to_map_app. simpl.
    rewrite <- (assoc_L (∪)). f_equal.
    rewrite insert_empty, <- insert_union_singleton_l. reflexivity.
Qed.

Lemma put_all_dom l c : dom (put_all l c) = list_to_set l.*1 ∪ dom c.
Proof.
  unfold put_all. revert c. induction l as [|[u r] l IH]; intros c; csimpl.
  - set_solver.
  - rewrite IH, dom_insert_L. set_solver.
Qed.

Lemma put_all_idemp l c : put_all l (put_all l c) = put_all l c.
Proof.
  rewrite !put_all_union, (assoc_L (∪)), (idemp_L (∪)). reflexivity.
Qed.

(** Storing a batch over a cache that already holds its URLs adds no
    URL. *)
Lemma put_all_dom_again l l' c :
  l'.*1 = l.*1 -> dom (put_all l' (put_all l c)) = dom (put_all l c).
Proof. intros E. rewrite !put_all_dom, E. set_solver. Qed.

(** The install listener, run: the cache is opened, the six URLs are
    requested, and the batch is stored when all of them answered [ok]. *)
Lemma on_install_run net w :
  on_install net w
  = let w0 := (caches_open CACHE_NAME w).2 in
    let w1 := mkWorld (caches w0) (requested w0 ++ PRECACHE) true (claimed w0) in
    match fetch_all_ok net PRECACHE with
    | Some l =>
        (true, with_caches (storage_update CACHE_NAME (put_all l) (caches w0)) w1)
    | None => (false, w1)
    end.
Proof.
  unfold on_install, waitUntil, then_, cache_addAll.
  destruct (caches_open CACHE_NAME w) as [s w0] eqn:Eo.
  assert (s = Fulfilled CACHE_NAME) as -> by (unfold caches_open in Eo; congruence).
  cbn [snd]. destruct (fetch_all_ok net PRECACHE); reflexivity.
Qed.

Lemma on_install_caches net w :
  caches (on_install net w).2
  = match fetch_all_ok net PRECACHE with
    | Some l =>
        storage_update CACHE_NAME (put_all l) (caches (caches_open CACHE_NAME w).2)
    | None => caches (caches_open CACHE_NAME w).2
    end.
Proof.
  rewrite on_install_run. cbv zeta.
  destruct (fetch_all_ok net PRECACHE); reflexivity.
Qed.

(** After an install the current cache exists, so opening it again
    changes nothing. *)
Lemma on_install_opened net w :
  CACHE_NAME ∈ (caches (on_install net w).2).*1.
Proof.
  rewrite on_install_caches.
  destruct (fetch_all_ok net PRECACHE);
    rewrite ?storage_update_names; apply caches_open_names.
Qed.

Lemma PRECACHE_NoDup : NoDup PRECACHE.
Proof. refine (bool_decide_unpack (NoDup PRECACHE) _). vm_compute. exact I. Qed.

(** C5: when the install listener completes successfully from an empty
    cache storage, the storage holds the current cache and nothing else,
    and that cache holds exactly the six URLs of the precache list, each
    with the response the network gave for it. *)
Theorem install_precaches_exactly net w w' :
  caches w = [] ->
  on_install net w = (true, w') ->
  exists c, caches w' = [(CACHE_NAME, c)] /\
    dom c = list_to_set PRECACHE /\
    size (dom c) = 6 /\
    (forall u, u ∈ PRECACHE -> c !! u = net u) /\
    (forall u, u ∉ PRECACHE -> c !! u = None).
Proof.
  intros He Hi.
  assert (Hc : caches w' = caches (on_install net w).2) by (rewrite Hi; reflexivity).
  rewrite on_install_run in Hi. cbv zeta in Hi.
  rewrite on_install_caches in Hc.
  destruct (fetch_all_ok net PRECACHE) as [l|] eqn:El; [|discriminate].
  destruct (fetch_all_ok_Some _ _ _ El) as [Hk Hl].
  assert (Ho : caches (caches_open CACHE_NAME w).2 = [(CACHE_NAME, ∅)]).
  { unfold caches_open, has_cache. rewrite He. reflexivity. }
  rewrite Ho in Hc. simpl in Hc.
  destruct (decide (CACHE_NAME = CACHE_NAME)); [|congruence].
  exists (put_all l ∅). split; [exact Hc|].
  assert (Hd : dom (put_all l ∅) = list_to_set PRECACHE).
  { rewrite put_all_dom, Hk. set_solver. }
  split; [exact Hd|]. split.
  { rewrite Hd, size_list_to_set by apply PRECACHE_NoDup. reflexivity. }
  assert (Hnd : NoDup (reverse l).*1).
  { rewrite fmap_reverse, Hk, reverse_Permutation. apply PRECACHE_NoDup. }
  split.
  - intros u Hu. rewrite <- Hk in Hu.
    apply list_elem_of_fmap in Hu as [[u' r] [-> Hur]].
    rewrite put_all_union, (right_id_L ∅ (∪)). simpl.
    rewrite Forall_forall in Hl. destruct (Hl _ Hur) as [Hn _].
    simpl in Hn. rewrite Hn.
    apply elem_of_list_to_map; [exact Hnd|].
    apply elem_of_reverse. exact Hur.
  - intros u Hu. apply not_elem_of_dom. rewrite Hd. set_solver.
Qed.

(** C6: installing is idempotent.  Run twice against the same network,
    the install listener leaves the cache storage exactly as one run
    does; and once one install has completed successfully, a further
    install, whatever the network answers then, leaves the set of
    cached URLs of every cache as it is. *)
Theorem install_idempotent :
  (forall net w,
     caches (on_install net (on_install net w).2).2
     = caches (on_install net w).2) /\
  (forall net net' w w1,
     on_install net w = (true, w1) ->
     cached_urls (caches (on_install net' w1).2) = cached_urls (caches w1)).
Proof.
  split.
  - intros net w.
    rewrite (on_install_caches net (on_install net w).2).
    rewrite (caches_open_present _ _ (on_install_opened net w)).
    rewrite on_install_caches.
    destruct (fetch_all_ok net PRECACHE) as [l|]; [|reflexivity].
    rewrite storage_update_twice. apply storage_update_ext.
    intros c. apply put_all_idemp.
  - intros net net' w w1 Hi.
    assert (Hw : w1 = (on_install net w).2) by (rewrite Hi; reflexivity).
    assert (Hl : exists l, fetch_all_ok net PRECACHE = Some l).
    { rewrite on_install_run in Hi. cbv zeta in Hi.
      destruct (fetch_all_ok net PRECACHE) as [l|]; [eauto | discriminate]. }
    destruct Hl as [l El]. subst w1.
    rewrite (on_install_caches net' (on_install net w).2).
    rewrite (caches_open_present _ _ (on_install_opened net w)).
    destruct (fetch_all_ok net' PRECACHE) as [l'|] eqn:El'; [|reflexivity].
    rewrite on_install_caches, El, storage_update_twice.
    apply cached_urls_update_ext. intros c. apply put_all_dom_again.
    destruct (fetch_all_ok_Some _ _ _ El) as [-> _].
    destruct (fetch_all_ok_Some _ _ _ El') as [-> _]. reflexivity.
Qed.

End Install.

(** ** The activate listener *)

Section Activate.

Import ServiceWorker.

Implicit Types (w : World) (cs : CacheStorage) (ks : list string).

Lemma filter_ext_elem {A} (P Q : A -> Prop)
    `{!forall x, Decision (P x)} `{!forall x, Decision (Q x)} (l : list A) :
  (forall x, x ∈ l -> P x <-> Q x) -> filter P l = filter Q l.
Proof.
  induction l as [|a l IH]; intros Hpq; [reflexivity|].
  rewrite !filter_cons.
  assert (Ha : P a <-> Q a) by (apply Hpq; left).
  assert (Hl : filter P l = filter Q l)
    by (apply IH; intros x Hx; apply Hpq; right; exact Hx).
  destruct (decide (P a)), (decide (Q a)); try tauto; congruence.
Qed.

Lemma filter_all_elem {A} (P : A -> Prop) `{!forall x, Decision (P x)} (l : list A) :
  (forall x, x ∈ l -> P x) -> filter P l = l.
Proof.
  induction l as [|a l IH]; intros Hp; [reflexivity|].
  rewrite filter_cons, decide_True by (apply Hp; left).
  f_equal. apply IH. intros x Hx. apply Hp. right. exact Hx.
Qed.

Lemma with_caches_same w : with_caches (caches w) w = w.
Proof. destruct w. reflexivity. Qed.

(** Deleting the caches of a list of names, one [caches.delete] per
    name: every deletion fulfils, and the caches left are those whose
    name is not in the list. *)
Lemma all_caches_delete ks w :
  exists bs,
    all (map (fun k => caches_delete k) ks) w
    = (Fulfilled bs, with_caches (filter (fun e => e.1 ∉ ks) (caches w)) w).
Proof.
  revert w. induction ks as [|k ks IH]; intros w.
  - exists []. simpl. rewrite filter_all_elem, with_caches_same; [reflexivity|].
    intros x _. apply not_elem_of_nil.
  - destruct (IH (caches_delete k w).2) as [bs Hbs].
    exists (has_cache k (caches w) :: bs).
    change (all (map (fun k0 => caches_delete k0) (k :: ks)) w)
      with (let (r, w1) := caches_delete k w in
            let (rs, w2) := all (map (fun k0 => caches_delete k0) ks) w1 in
            (match r, rs with
             | Fulfilled a, Fulfilled l => Fulfilled (a :: l)
             | _, _ => Rejected
             end, w2)).
    unfold caches_delete at 1. unfold caches_delete at 2 in Hbs.
    cbn [snd] in Hbs. rewrite Hbs.
    unfold caches_delete, with_caches;
      cbn [snd caches requested skipped_waiting claimed].
    rewrite list_filter_filter. do 3 f_equal.
    apply filter_ext_elem. intros [n c] _. cbn [fst].
    rewrite not_elem_of_cons. tauto.
Qed.

(** The activate listener, run. *)
Lemma on_activate_run w :
  on_activate w
  = (true,
     clients_claim
       (with_caches (filter (fun e => e.1 = CACHE_NAME) (caches w)) w)).
Proof.
  unfold on_activate, waitUntil, then_, caches_keys.
  destruct (all_caches_delete
              (filter (fun k => k ≠ CACHE_NAME) (caches w).*1) w) as [bs ->].
  do 3 f_equal. apply filter_ext_elem. intros [n c] Hin. cbn [fst].
  rewrite list_elem_of_filter. split.
  - intros H. destruct (decide (n = CACHE_NAME)) as [E|E]; [exact E|].
    exfalso. apply H. split; [exact E|].
    apply list_elem_of_fmap. exists (n, c). split; [reflexivity | exact Hin].
  - intros -> [H _]. apply H. reflexivity.
Qed.

(** C4: the activate listener completes, from any cache storage, and
    afterwards the storage holds the caches named [railreach-v1] it
    held before, contents untouched, and no other: every cache whose
    name differs has been deleted. *)
Theorem activate_purges_other_caches w :
  exists w', on_activate w = (true, w') /\
    caches w' = filter (fun e => e.1 = CACHE_NAME) (caches w) /\
    (forall name c, (name, c) ∈ caches w' -> name = CACHE_NAME) /\
    (forall name c, (name, c) ∈ caches w -> name ≠ CACHE_NAME ->
       name ∉ (caches w').*1) /\
    (forall c, (CACHE_NAME, c) ∈ caches w -> (CACHE_NAME, c) ∈ caches w').
Proof.
  eexists. split; [apply on_activate_run|]. cbn [clients_claim caches with_caches].
  split; [reflexivity|]. split; [|split].
  - intros name c H. apply list_elem_of_filter in H as [H _]. exact H.
  - intros name c _ Hne Hin.
    apply list_elem_of_fmap in Hin as [[n c'] [-> Hin]].
    apply list_elem_of_filter in Hin as [H _]. exact (Hne H).
  - intros c H. apply list_elem_of_filter. split; [reflexivity | exact H].
Qed.

End Activate.

(** ** The properties on the sample worlds *)

Section Runs.

Import ServiceWorker Scenario.

(** A first install stores the six URLs and asks the network for each
    of them once. *)
Example install_fresh_keys :
  cached_urls (caches installed)
  = [("railreach-v1", list_to_set PRECACHE)].
Proof. vm_compute. reflexivity. Qed.

Example install_fresh_requests : requested installed = PRECACHE.
Proof. vm_compute. reflexivity. Qed.

(** An install with the network down opens the cache and stores
    nothing; so does one where a URL is answered with an error
    status. *)
Example install_offline : (on_install offline fresh).1 = false
  /\ caches (on_install offline fresh).2 = [("railreach-v1", ∅)].
Proof. vm_compute. split; reflexivity. Qed.

Example install_unavailable : (on_install unavailable fresh).1 = false
  /\ caches (on_install unavailable fresh).2 = [("railreach-v1", ∅)].
Proof. vm_compute. split; reflexivity. Qed.

(** Activation drops the cache of the older version. *)
Example activate_browsing :
  (caches (on_activate browsing).2).*1 = ["railreach-v1"].
Proof. vm_compute. reflexivity. Qed.

(** A cached tile is served without a network request, even with the
    network down. *)
Example fetch_cached_tile :
  on_fetch offline tile_request browsing = (Served tile, browsing).
Proof. vm_compute. reflexivity. Qed.

(** A tile answered with a 503 is stored like any other, and served
    from the cache afterwards. *)
Example fetch_tile_503_then_again :
  let w1 := (on_fetch unavailable other_tile_request browsing).2 in
  on_fetch online other_tile_request w1
  = (Served (mkResponse 503 "Service Unavailable" []), w1).
Proof. vm_compute. reflexivity. Qed.

(** With the network down: a cached page, the root page for a page that
    is not cached, and a network error when the root page is not cached
    either. *)
Example fetch_london_offline :
  (on_fetch offline london_request browsing).1 = Served london.
Proof. vm_compute. reflexivity. Qed.

(** The root page found is the first in creation order: here the one of
    the older cache, which has not been purged. *)
Example fetch_york_offline :
  (on_fetch offline york_request browsing).1
  = Served (mkResponse 200 "old home" []).
Proof. vm_compute. reflexivity. Qed.

Example fetch_york_offline_activated :
  (on_fetch offline york_request (on_activate browsing).2).1 = Served home.
Proof. vm_compute. reflexivity. Qed.

Example fetch_york_offline_unfilled :
  (on_fetch offline york_request unfilled).1 = NetworkError.
Proof. vm_compute. reflexivity. Qed.

(** A script that is not cached is fetched and not stored. *)
Example fetch_script_online :
  on_fetch online script_request browsing
  = (Served (mkResponse 200 "content of /assets/js/extra.js" []),
     with_request "/assets/js/extra.js" browsing).
Proof. vm_compute. reflexivity. Qed.

End Runs.

(** ** The conditional properties, at sample inputs *)

Section Instances.

Import ServiceWorker Scenario.

(** C1 at a page that is not cached, the network down. *)
Lemma document_network_first_witness :
  JsString.includes (hostname york_request) "tile.openstreetmap.org" = false /\
  destination york_request = "document" /\
  exists d w', on_fetch offline york_request installed = (d, w') /\
    requested w' = requested installed ++ [url york_request] /\
    caches w' = caches installed /\
    (forall r, offline (url york_request) = Some r -> d = Served r) /\
    (offline (url york_request) = None ->
       (forall r, storage_match (caches installed) (url york_request) = Some r ->
          d = Served r) /\
       (forall r, storage_match (caches installed) (url york_request) = None ->
          storage_match (caches installed) "/" = Some r -> d = Served r)).
Proof.
  split; [reflexivity|]. split; [reflexivity|].
  apply (document_network_first offline york_request installed); reflexivity.
Defined.

(** C2, amended, at a tile that is cached, at one that is not, and at
    one that is not and is answered with a response marked [Vary: *]. *)
Lemma tile_cache_first_refill_witness :
  JsString.includes (hostname tile_request) "tile.openstreetmap.org" = true /\
  on_fetch offline tile_request browsing = (Served tile, browsing) /\
  (exists w', on_fetch online other_tile_request browsing
              = (Served (mkResponse 200 "content of https://a.tile.openstreetmap.org/7/63/43.png" []), w') /\
     requested w' = requested browsing ++ [url other_tile_request] /\
     exists c, (CACHE_NAME, c) ∈ caches w' /\
       c !! url other_tile_request
       = Some (mkResponse 200 "content of https://a.tile.openstreetmap.org/7/63/43.png" [])) /\
  (exists w', on_fetch varying other_tile_request browsing
              = (Served (mkResponse 200 "negotiated" ["*"]), w') /\
     forall u, storage_match (caches w') u = storage_match (caches browsing) u).
Proof.
  assert (Hm : storage_match (caches browsing) (url other_tile_request) = None)
    by (vm_compute; reflexivity).
  split; [reflexivity|]. split; [|split].
  - apply (proj1 (tile_cache_first_refill offline tile_request browsing eq_refl)).
    vm_compute. reflexivity.
  - destruct (proj2 (tile_cache_first_refill online other_tile_request browsing eq_refl)
                _ Hm eq_refl) as (w' & E & Hr & Hs & _).
    exists w'. split; [exact E|]. split; [exact Hr|].
    apply Hs; [discriminate | apply not_elem_of_nil].
  - destruct (proj2 (tile_cache_first_refill varying other_tile_request browsing eq_refl)
                _ Hm eq_refl) as (w' & E & _ & _ & Hs).
    exists w'. split; [exact E|].
    apply Hs. right. left.
Defined.

(** C2 as first stated fails at a tile answered with a partial response:
    the response is returned to the page, and no copy is in the current
    cache. *)
Lemma tile_refill_copy_refused :
  JsString.includes (hostname other_tile_request) "tile.openstreetmap.org" = true /\
  storage_match (caches browsing) (url other_tile_request) = None /\
  partial_content (url other_tile_request) = Some (mkResponse 206 "first bytes" []) /\
  (on_fetch partial_content other_tile_request browsing).1
  = Served (mkResponse 206 "first bytes" []) /\
  ~ (exists w', on_fetch partial_content other_tile_request browsing
                = (Served (mkResponse 206 "first bytes" []), w') /\
       requested w' = requested browsing ++ [url other_tile_request] /\
       exists c, (CACHE_NAME, c) ∈ caches w' /\
         c !! url other_tile_request = Some (mkResponse 206 "first bytes" [])).
Proof.
  assert (Hm : storage_match (caches browsing) (url other_tile_request) = None)
    by (vm_compute; reflexivity).
  assert (E : on_fetch partial_content other_tile_request browsing
              = (Served (mkResponse 206 "first bytes" []),
                 (cache_put CACHE_NAME (url other_tile_request)
                    (mkResponse 206 "first bytes" [])
                    (caches_open CACHE_NAME
                       (with_request (url other_tile_request) browsing)).2).2)).
  { rewrite (on_fetch_tile partial_content other_tile_request eq_refl).
    apply tile_branch_miss; [exact Hm | reflexivity]. }
  split; [reflexivity|]. split; [exact Hm|]. split; [reflexivity|].
  split; [rewrite E; reflexivity|].
  intros (w' & E' & _ & c & Hin & Hc).
  rewrite E in E'. injection E' as <-.
  assert (Hk : storage_match
                 (caches (cache_put CACHE_NAME (url other_tile_request)
                            (mkResponse 206 "first bytes" [])
                            (caches_open CACHE_NAME
                               (with_request (url other_tile_request) browsing)).2).2)
                 (url other_tile_request) = None).
  { rewrite refill_refused; [exact Hm | reflexivity]. }
  rewrite (storage_match_None_elem _ _ _ _ Hk Hin) in Hc. discriminate Hc.
Qed.

(** C5 at a first install with the network up. *)
Lemma install_precaches_exactly_witness :
  caches fresh = [] /\
  on_install online fresh = (true, installed) /\
  exists c, caches installed = [(CACHE_NAME, c)] /\
    dom c = list_to_set PRECACHE /\
    size (dom c) = 6 /\
    (forall u, u ∈ PRECACHE -> c !! u = online u) /\
    (forall u, u ∉ PRECACHE -> c !! u = None).
Proof.
  split; [reflexivity|].
  assert (H : on_install online fresh = (true, installed))
    by (vm_compute; reflexivity).
  split; [exact H|].
  exact (install_precaches_exactly online fresh installed eq_refl H).
Defined.

(** C6 at a second install, with the server then failing and with the
    network up again. *)
Lemma install_idempotent_witness :
  caches (on_install online (on_install online fresh).2).2
  = caches (on_install online fresh).2 /\
  on_install online fresh = (true, installed) /\
  cached_urls (caches (on_install unavailable installed).2)
  = cached_urls (caches installed).
Proof.
  split; [apply (proj1 install_idempotent online fresh)|].
  assert (H : on_install online fresh = (true, installed))
    by (vm_compute; reflexivity).
  split; [exact H|].
  exact (proj2 install_idempotent online unavailable fresh installed H).
Defined.

(** C7 at a page request, the network down and the cache never
    filled. *)
Lemma document_failure_propagates_witness :
  JsString.includes (hostname york_request) "tile.openstreetmap.org" = false /\
  destination york_request = "document" /\
  offline (url york_request) = None /\
  storage_match (caches unfilled) (url york_request) = None /\
  storage_match (caches unfilled) "/" = None /\
  (on_fetch offline york_request unfilled).1 = NetworkError.
Proof.
  assert (Hm : storage_match (caches unfilled) (url york_request) = None)
    by (vm_compute; reflexivity).
  assert (Hr : storage_match (caches unfilled) "/" = None)
    by (vm_compute; reflexivity).
  repeat (split; [first [reflexivity | assumption]|]).
  exact (document_failure_propagates offline york_request unfilled
           eq_refl eq_refl eq_refl Hm Hr).
Defined.

(** C8 at a script that is not cached. *)
Lemma asset_cache_first_no_refill_witness :
  JsString.includes (hostname script_request) "tile.openstreetmap.org" = false /\
  destination script_request <> "document" /\
  exists d w', on_fetch online script_request browsing = (d, w') /\
    caches w' = caches browsing /\
    (forall r, storage_match (caches browsing) (url script_request) = Some r ->
       d = Served r /\ w' = browsing) /\
    (storage_match (caches browsing) (url script_request) = None ->
       requested w' = requested browsing ++ [url script_request] /\
       d = match online (url script_request) with
           | Some r => Served r
           | None => NetworkError
           end).
Proof.
  assert (Hd : destination script_request <> "document") by discriminate.
  split; [reflexivity|]. split; [exact Hd|].
  exact (asset_cache_first_no_refill online script_request browsing eq_refl Hd).
Defined.

(** C9 at a document request to a host that has the provider's name as
    a proper prefix. *)
Lemma tile_dispatch_by_substring_witness :
  hostname lookalike_request = "" +:+ "tile.openstreetmap.org" +:+ ".example.com" /\
  destination lookalike_request = "document" /\
  on_fetch online lookalike_request
  = respondWith (tile_branch online lookalike_request).
Proof.
  split; [reflexivity|]. split; [reflexivity|].
  apply (tile_dispatch_by_substring online lookalike_request).
  exists "", ".example.com". reflexivity.
Defined.

(** C10, amended, at a tile the server answers with a 503, which is
    kept, and at one it answers with a partial response, which is not. *)
Lemma tile_refill_kept_unless_refused_witness :
  ok (mkResponse 503 "Service Unavailable" []) = false /\
  JsString.includes (hostname other_tile_request) "tile.openstreetmap.org" = true /\
  storage_match (caches browsing) (url other_tile_request) = None /\
  unavailable (url other_tile_request) = Some (mkResponse 503 "Service Unavailable" []) /\
  (let w' := (on_fetch unavailable other_tile_request browsing).2 in
   storage_match (caches w') (url other_tile_request)
   = Some (mkResponse 503 "Service Unavailable" []) /\
   on_fetch online other_tile_request w'
   = (Served (mkResponse 503 "Service Unavailable" []), w')) /\
  (let w' := (on_fetch partial_content other_tile_request browsing).2 in
   storage_match (caches w') (url other_tile_request) = None /\
   requested (on_fetch online other_tile_request w').2
   = requested w' ++ [url other_tile_request] /\
   (on_fetch online other_tile_request w').1
   = match online (url other_tile_request) with
     | Some r' => Served r'
     | None => NetworkError
     end).
Proof.
  assert (Hm : storage_match (caches browsing) (url other_tile_request) = None)
    by (vm_compute; reflexivity).
  split; [reflexivity|]. split; [reflexivity|]. split; [exact Hm|].
  split; [reflexivity|]. split.
  - apply (proj1 (tile_refill_kept_unless_refused unavailable online
                    other_tile_request browsing
                    (mkResponse 503 "Service Unavailable" []) eq_refl Hm eq_refl));
      [discriminate | apply not_elem_of_nil].
  - apply (proj2 (tile_refill_kept_unless_refused partial_content online
                    other_tile_request browsing
                    (mkResponse 206 "first bytes" []) eq_refl Hm eq_refl)).
    left. reflexivity.
Defined.

(** C10 as first stated fails at a tile answered with a partial
    response: it is not kept, and the same request asked again is
    answered by the network, not with the earlier response. *)
Lemma tile_refill_partial_not_kept :
  JsString.includes (hostname other_tile_request) "tile.openstreetmap.org" = true /\
  storage_match (caches browsing) (url other_tile_request) = None /\
  partial_content (url other_tile_request) = Some (mkResponse 206 "first bytes" []) /\
  let w' := (on_fetch partial_content other_tile_request browsing).2 in
  storage_match (caches w') (url other_tile_request) = None /\
  (on_fetch online other_tile_request w').1
  = Served (mkResponse 200 "content of https://a.tile.openstreetmap.org/7/63/43.png" []) /\
  ~ (storage_match (caches w') (url other_tile_request)
     = Some (mkResponse 206 "first bytes" []) /\
     on_fetch online other_tile_request w'
     = (Served (mkResponse 206 "first bytes" []), w')).
Proof.
  assert (Hm : storage_match (caches browsing) (url other_tile_request) = None)
    by (vm_compute; reflexivity).
  split; [reflexivity|]. split; [exact Hm|]. split; [reflexivity|]. cbv zeta.
  assert (Hk : storage_match
                 (caches (on_fetch partial_content other_tile_request browsing).2)
                 (url other_tile_request) = None).
  { rewrite (on_fetch_tile partial_content other_tile_request eq_refl),
      (tile_branch_miss partial_content other_tile_request browsing
         (mkResponse 206 "first bytes" []) Hm eq_refl).
    cbn [snd]. rewrite refill_refused; [exact Hm | reflexivity]. }
  split; [exact Hk|]. split.
  - vm_compute. reflexivity.
  - intros [H _]. rewrite Hk in H. discriminate H.
Qed.

End Instances.

(** * Further properties *)

(** ** The colour scale as an order-preserving map *)

Section ColourScale.

Import MapCore.
Local Open Scope float_scope.

#[local] Set Warnings "-inexact-float".

Local Ltac order_cases :=
  repeat match goal with
    | |- context [(?x ?= ?y)%Z] => destruct (Z.compare_spec x y)
    | |- context [Pos.compare_cont Eq ?x ?y] =>
        change (Pos.compare_cont Eq x y) with (Pos.compare x y);
        destruct (Pos.compare_spec x y)
    end;
  simpl; try congruence; try lia.

(** Below-or-equal then strictly-below is strictly-below. *)
Lemma SFleb_SFltb_trans (a b c : spec_float) :
  SFleb a b = true -> SFltb b c = true -> SFltb a c = true.
Proof.
  unfold SFleb, SFltb.
  destruct a as [sa|sa| |sa ma ea], b as [sb|sb| |sb mb eb],
    c as [sc|sc| |sc mc ec]; cbn [SFcompare];
    try (destruct sa); try (destruct sb); try (destruct sc);
    try congruence; order_cases.
Qed.

(** Two values that are not NaN are comparable. *)
Lemma SFltb_false_SFleb (a b : spec_float) :
  a <> S754_nan -> b <> S754_nan -> SFltb a b = false -> SFleb b a = true.
Proof.
  unfold SFleb, SFltb. intros Ha Hb.
  destruct a as [sa|sa| |sa ma ea], b as [sb|sb| |sb mb eb]; cbn [SFcompare];
    try (destruct sa); try (destruct sb); try congruence; order_cases.
Qed.

Lemma SFltb_true_not_nan (a b : spec_float) : SFltb a b = true -> a <> S754_nan.
Proof. intros H ->. discriminate. Qed.

Lemma leb_ltb_trans (a b c : float) :
  (a <=? b) = true -> (b <? c) = true -> (a <? c) = true.
Proof. rewrite leb_spec, !ltb_spec. apply SFleb_SFltb_trans. Qed.

Lemma getColor_green_inv (m : float) : getColor m = green -> (m <? 30) = true.
Proof.
  unfold getColor, green. destruct (m <? 30); [reflexivity|].
  destruct (m <? 60); discriminate.
Qed.

(** X1: the colour returned tells the range of the argument.  Green is
    returned only below 30, amber only from 30 and below 60, and red only
    from 60 on or for NaN. *)
Theorem getColor_range_of_colour (m : float) :
  (getColor m = green -> (m <? 30) = true) /\
  (getColor m = amber -> (30 <=? m) = true /\ (m <? 60) = true) /\
  (getColor m = red -> (60 <=? m) = true \/ Prim2SF m = S754_nan).
Proof.
  split; [apply getColor_green_inv|].
  unfold getColor, green, amber, red.
  destruct (m <? 30) eqn:E30.
  { split; discriminate. }
  destruct (m <? 60) eqn:E60.
  - split; [|discriminate]. intros _.
    split; [|reflexivity].
    rewrite leb_spec. rewrite ltb_spec in E30, E60.
    apply SFltb_false_SFleb; [|rewrite Prim2SF_30; discriminate|exact E30].
    exact (SFltb_true_not_nan _ _ E60).
  - split; [discriminate|]. intros _.
    destruct (Prim2SF m) as [s|s| |s mm em] eqn:Em; [| |right; reflexivity|];
      left; rewrite leb_spec; rewrite ltb_spec in E60;
      (apply SFltb_false_SFleb;
       [rewrite Em; discriminate | rewrite Prim2SF_60; discriminate | exact E60]).
Qed.

Lemma getColor_range_of_colour_witness :
  (22.5 <? 30) = true /\ ((30 <=? 45) = true /\ (45 <? 60) = true) /\
  ((60 <=? 75) = true \/ Prim2SF 75 = S754_nan).
Proof.
  split; [|split].
  - apply (proj1 (getColor_range_of_colour 22.5)). reflexivity.
  - apply (proj1 (proj2 (getColor_range_of_colour 45))). reflexivity.
  - apply (proj2 (proj2 (getColor_range_of_colour 75))). reflexivity.
Defined.

(** X2: the scale is monotone.  If [a <= b] then a green [b] has a green
    [a], and a red [a] has a red [b]: a longer journey is never shown in
    a better colour. *)
Theorem getColor_monotone (a b : float) :
  (a <=? b) = true ->
  (getColor b = green -> getColor a = green) /\
  (getColor a = red -> getColor b = red).
Proof.
  intros Hab. split.
  - intros Hb. apply getColor_green_inv in Hb.
    unfold getColor. rewrite (leb_ltb_trans a b 30 Hab Hb). reflexivity.
  - unfold getColor, red.
    destruct (b <? 30) eqn:B30.
    { rewrite (leb_ltb_trans a b 30 Hab B30). discriminate. }
    destruct (b <? 60) eqn:B60; [|reflexivity].
    rewrite (leb_ltb_trans a b 60 Hab B60).
    destruct (a <? 30); discriminate.
Qed.

Lemma getColor_monotone_witness :
  getColor 12 = green /\ getColor 90.5 = red.
Proof.
  split.
  - apply (proj1 (getColor_monotone 12 29.5 eq_refl)). reflexivity.
  - apply (proj2 (getColor_monotone 61 90.5 eq_refl)). reflexivity.
Defined.

End ColourScale.

(** ** Updates of one cache and what the others keep *)

Section StorageFrame.

Import ServiceWorker.

Implicit Types (cs : CacheStorage) (c : gmap string Response)
  (name n u : string) (r : Response) (w : World).

Lemma storage_update_other_elem name f cs n c :
  n ≠ name -> (n, c) ∈ storage_update name f cs <-> (n, c) ∈ cs.
Proof.
  intros Hn. induction cs as [|[n0 c0] cs IH]; simpl; [reflexivity|].
  destruct (decide (n0 = name)) as [->|E].
  - rewrite !elem_of_cons. split; (intros [H|H]; [left; congruence | right; exact H]).
  - rewrite !elem_of_cons, IH. reflexivity.
Qed.

Lemma storage_update_match name f cs u :
  (forall c, f c !! u = c !! u) ->
  storage_match (storage_update name f cs) u = storage_match cs u.
Proof.
  intros Hf. induction cs as [|[n0 c0] cs IH]; simpl; [reflexivity|].
  destruct (decide (n0 = name)); simpl.
  - rewrite Hf. reflexivity.
  - rewrite IH. reflexivity.
Qed.

Lemma storage_update_match_is_Some name f cs u :
  (forall c, is_Some (c !! u) -> is_Some (f c !! u)) ->
  is_Some (storage_match cs u) ->
  is_Some (storage_match (storage_update name f cs) u).
Proof.
  intros Hf. induction cs as [|[n0 c0] cs IH]; simpl; [trivial|].
  destruct (decide (n0 = name)); simpl.
  - destruct (c0 !! u) as [r0|] eqn:E0.
    + intros _. destruct (Hf c0) as [r1 ->]; [rewrite E0|]; eauto.
    + destruct (f c0 !! u); eauto.
  - destruct (c0 !! u); eauto.
Qed.

Lemma storage_update_keeps name f cs n u :
  (forall c, is_Some (c !! u) -> is_Some (f c !! u)) ->
  (exists c, (n, c) ∈ cs /\ is_Some (c !! u)) ->
  exists c, (n, c) ∈ storage_update name f cs /\ is_Some (c !! u).
Proof.
  intros Hf. induction cs as [|[n0 c0] cs IH]; simpl; intros [c [Hin Hc]].
  - inversion Hin.
  - apply elem_of_cons in Hin as [Hin|Hin].
    + injection Hin as -> ->.
      destruct (decide (n0 = name)).
      * exists (f c0). split; [left | apply Hf, Hc].
      * exists c0. split; [left | exact Hc].
    + destruct (decide (n0 = name)).
      * exists c. split; [right; exact Hin | exact Hc].
      * destruct IH as [c' [Hin' Hc']]; [eauto|].
        exists c'. split; [right; exact Hin' | exact Hc'].
Qed.

Lemma storage_match_elem_is_Some cs n c u :
  (n, c) ∈ cs -> is_Some (c !! u) -> is_Some (storage_match cs u).
Proof.
  induction cs as [|[n0 c0] cs IH]; simpl; intros Hin Hc.
  - inversion Hin.
  - apply elem_of_cons in Hin as [Hin|Hin].
    + injection Hin as -> ->. destruct Hc as [r ->]. eauto.
    + destruct (c0 !! u); eauto.
Qed.

(** The storage after [caches.open]. *)
Lemma caches_open_caches name w :
  caches (caches_open name w).2
  = if has_cache name (caches w) then caches w else caches w ++ [(name, ∅)].
Proof. unfold caches_open. cbn [snd]. destruct (has_cache name (caches w)); reflexivity. Qed.

Lemma caches_open_elem name w n c :
  (n, c) ∈ caches w -> (n, c) ∈ caches (caches_open name w).2.
Proof.
  rewrite caches_open_caches. destruct (has_cache name (caches w)); [trivial|].
  intros H. apply elem_of_app. left. exact H.
Qed.

Lemma caches_open_other_elem name w n c :
  n ≠ name -> (n, c) ∈ caches (caches_open name w).2 <-> (n, c) ∈ caches w.
Proof.
  intros Hn. rewrite caches_open_caches.
  destruct (has_cache name (caches w)); [reflexivity|].
  rewrite elem_of_app, list_elem_of_singleton. split; [|tauto].
  intros [H|H]; [exact H | congruence].
Qed.

Lemma caches_open_flags name w :
  skipped_waiting (caches_open name w).2 = skipped_waiting w
  /\ claimed (caches_open name w).2 = claimed w.
Proof. unfold caches_open. cbn [snd]. destruct (has_cache name (caches w)); split; reflexivity. Qed.

(** The names after [caches.open]: the same, or the new name last. *)
Lemma caches_open_names_cases name w :
  (caches (caches_open name w).2).*1 = (caches w).*1
  \/ ((name ∉ (caches w).*1)
      /\ (caches (caches_open name w).2).*1 = (caches w).*1 ++ [name]).
Proof.
  rewrite caches_open_caches. unfold has_cache.
  destruct (bool_decide_reflect (name ∈ (caches w).*1)) as [H|H]; [left; reflexivity|].
  right. split; [exact H|]. rewrite fmap_app. reflexivity.
Qed.

End StorageFrame.

(** ** The fetch listener: effects and frame *)

Section FetchFrame.

Import ServiceWorker.

Implicit Types (net : Network) (req : Request) (w : World) (r : Response).

(** The world a tile refill leaves. *)
Lemma refill_caches req r w :
  caches (cache_put CACHE_NAME (url req) r
            (caches_open CACHE_NAME (with_request (url req) w)).2).2
  = let opened := if has_cache CACHE_NAME (caches w) then caches w
                   else caches w ++ [(CACHE_NAME, ∅)] in
    if cacheable r
    then storage_update CACHE_NAME (fun c => <[url req := r]> c) opened
    else opened.
Proof. rewrite cache_put_caches, caches_open_caches. reflexivity. Qed.

(** The tile branch, in full. *)
Lemma tile_branch_run net req w :
  respondWith (tile_branch net req) w
  = match storage_match (caches w) (url req) with
    | Some r => (Served r, w)
    | None =>
        match net (url req) with
        | Some r =>
            (Served r,
             (cache_put CACHE_NAME (url req) r
                (caches_open CACHE_NAME (with_request (url req) w)).2).2)
        | None => (NetworkError, with_request (url req) w)
        end
    end.
Proof.
  destruct (storage_match (caches w) (url req)) as [r|] eqn:Em.
  - apply tile_branch_hit. exact Em.
  - destruct (net (url req)) as [r|] eqn:En.
    + apply tile_branch_miss; assumption.
    + unfold respondWith, tile_branch, then_, caches_match, or_else, fetch.
      rewrite Em, En. reflexivity.
Qed.

(** The three worlds a fetch can leave: the one it found, that one with
    one more network request, or the one of a tile refill. *)
Lemma on_fetch_effect net req w :
  (on_fetch net req w).2 = w
  \/ (on_fetch net req w).2 = with_request (url req) w
  \/ (JsString.includes (hostname req) "tile.openstreetmap.org" = true
      /\ storage_match (caches w) (url req) = None
      /\ exists r, net (url req) = Some r
         /\ (on_fetch net req w).2
            = (cache_put CACHE_NAME (url req) r
                 (caches_open CACHE_NAME (with_request (url req) w)).2).2).
Proof.
  unfold on_fetch.
  destruct (JsString.includes (hostname req) "tile.openstreetmap.org") eqn:Et.
  - rewrite tile_branch_run.
    destruct (storage_match (caches w) (url req)) as [r|] eqn:Em; [left; reflexivity|].
    destruct (net (url req)) as [r|] eqn:En; [|right; left; reflexivity].
    right. right. split; [reflexivity|]. split; [reflexivity|].
    exists r. split; reflexivity.
  - destruct (String.eqb (destination req) "document").
    + rewrite document_branch_run. right. left. reflexivity.
    + rewrite asset_branch_run.
      destruct (storage_match (caches w) (url req)); [left|right; left]; reflexivity.
Qed.

(** X4: a tile that is neither cached nor answered by the network gives
    the page a network error; the request went to the network once and
    the cache storage is as it was, the current cache not even opened. *)
Theorem tile_miss_network_failure net req w :
  JsString.includes (hostname req) "tile.openstreetmap.org" = true ->
  storage_match (caches w) (url req) = None ->
  net (url req) = None ->
  on_fetch net req w = (NetworkError, with_request (url req) w).
Proof.
  intros Ht Hm Hn. rewrite (on_fetch_tile net req Ht), tile_branch_run, Hm, Hn.
  reflexivity.
Qed.

(** X5: the fetch listener writes to the cache storage only when it
    refills a tile.  For a request to another host, for a request that is
    found in the caches, and for one the network does not answer, the
    cache storage is left exactly as it was. *)
Theorem fetch_writes_only_on_tile_refill net req w :
  JsString.includes (hostname req) "tile.openstreetmap.org" = false
  \/ is_Some (storage_match (caches w) (url req))
  \/ net (url req) = None ->
  caches (on_fetch net req w).2 = caches w.
Proof.
  intros H.
  destruct (on_fetch_effect net req w) as [-> | [-> | (Ht & Hm & r & Hn & _)]];
    [reflexivity | reflexivity |].
  destruct H as [H | [[r0 H] | H]]; congruence.
Qed.

(** X6: a fetch changes nothing but the entry of its own URL: under every
    other URL [caches.match] finds what it found before, and the caches of
    other names hold what they held. *)
Theorem fetch_touches_only_its_url net req w :
  (forall u, u ≠ url req ->
     storage_match (caches (on_fetch net req w).2) u = storage_match (caches w) u) /\
  (forall n c, n ≠ CACHE_NAME ->
     (n, c) ∈ caches (on_fetch net req w).2 <-> (n, c) ∈ caches w).
Proof.
  destruct (on_fetch_effect net req w) as [-> | [-> | (Ht & Hm & r & Hn & ->)]];
    [split; reflexivity | split; reflexivity |].
  split.
  - intros u Hu. rewrite cache_put_caches. destruct (cacheable r).
    + rewrite storage_update_match.
      * rewrite caches_open_match. reflexivity.
      * intros c. apply lookup_insert_ne. congruence.
    + rewrite caches_open_match. reflexivity.
  - intros n c Hn'. rewrite cache_put_caches. destruct (cacheable r).
    + rewrite storage_update_other_elem by exact Hn'.
      rewrite caches_open_other_elem by exact Hn'. reflexivity.
    + rewrite caches_open_other_elem by exact Hn'. reflexivity.
Qed.

(** X7: a fetch event makes at most one network request, for the URL of
    the intercepted request, and leaves the lifecycle flags alone. *)
Theorem fetch_at_most_one_request net req w :
  let w' := (on_fetch net req w).2 in
  (requested w' = requested w \/ requested w' = requested w ++ [url req]) /\
  skipped_waiting w' = skipped_waiting w /\
  claimed w' = claimed w.
Proof.
  cbv zeta.
  destruct (on_fetch_effect net req w) as [-> | [-> | (Ht & Hm & r & Hn & ->)]].
  - split; [left; reflexivity | split; reflexivity].
  - split; [right; reflexivity | split; reflexivity].
  - rewrite cache_put_requested, caches_open_requested.
    split; [right; reflexivity|].
    destruct (cache_put_flags CACHE_NAME (url req) r
                (caches_open CACHE_NAME (with_request (url req) w)).2) as [-> ->].
    destruct (caches_open_flags CACHE_NAME (with_request (url req) w)) as [H1 H2].
    split; [exact H1 | exact H2].
Qed.

(** How a request is answered depends on the cache storage alone, not on
    the rest of the world. *)
Lemma on_fetch_answer_caches net req w1 w2 :
  caches w1 = caches w2 -> (on_fetch net req w1).1 = (on_fetch net req w2).1.
Proof.
  intros E. unfold on_fetch.
  destruct (JsString.includes (hostname req) "tile.openstreetmap.org").
  - rewrite !tile_branch_run, E.
    destruct (storage_match (caches w2) (url req)); [reflexivity|].
    destruct (net (url req)); reflexivity.
  - destruct (String.eqb (destination req) "document").
    + rewrite !document_branch_run, E. reflexivity.
    + rewrite !asset_branch_run, E.
      destruct (storage_match (caches w2) (url req)); reflexivity.
Qed.

(** X8: a request to a host other than the tile provider has no effect
    on how later requests are answered.  In particular a page visited
    with the network up is not kept: asked again with the network down,
    it is answered as if it had never been visited. *)
Theorem non_tile_fetch_leaves_no_trace net req w net' req' :
  JsString.includes (hostname req) "tile.openstreetmap.org" = false ->
  (on_fetch net' req' (on_fetch net req w).2).1 = (on_fetch net' req' w).1.
Proof.
  intros Ht. apply on_fetch_answer_caches.
  destruct (on_fetch_effect net req w) as [-> | [-> | (Ht' & _)]];
    [reflexivity | reflexivity | congruence].
Qed.

(** X9: the dispatch is complete: a request whose hostname does not
    contain the provider's name never reaches the tile branch; it goes to
    the document branch when its destination is [document] and to the
    asset branch otherwise. *)
Theorem non_tile_dispatch net req :
  ~ (exists a b, hostname req = a +:+ "tile.openstreetmap.org" +:+ b) ->
  on_fetch net req
  = if String.eqb (destination req) "document"
    then respondWith (document_branch net req)
    else respondWith (asset_branch net req).
Proof.
  intros H. unfold on_fetch.
  destruct (JsString.includes (hostname req) "tile.openstreetmap.org") eqn:E;
    [|reflexivity].
  exfalso. apply H. apply includes_spec. exact E.
Qed.

End FetchFrame.

(** ** The install listener: failure, frame, refresh *)

Section InstallFrame.

Import ServiceWorker.

Implicit Types (net : Network) (w : World) (c : gmap string Response)
  (l : list (string * Response)) (u : string).

Lemma fetch_all_ok_is_Some net urls :
  is_Some (fetch_all_ok net urls)
  <-> (forall u, u ∈ urls ->
         exists r, net u = Some r /\ ok r = true /\ cacheable r = true).
Proof.
  induction urls as [|u0 urls IH]; simpl.
  - split; [intros _ u Hu; inversion Hu | eauto].
  - split.
    + intros H u Hu.
      destruct (net u0) as [r0|] eqn:En; [|destruct H; discriminate].
      destruct (ok r0) eqn:Eok; [|destruct H; discriminate].
      destruct (cacheable r0) eqn:Ec; [|destruct H; discriminate].
      cbn [andb] in H.
      destruct (fetch_all_ok net urls) as [l|]; [|destruct H; discriminate].
      apply elem_of_cons in Hu as [->|Hu]; [eauto|].
      apply IH; eauto.
    + intros H. destruct (H u0) as [r0 (-> & -> & ->)]; [left|]. cbn [andb].
      destruct (proj2 IH) as [l ->]; [|eauto].
      intros u Hu. apply H. right. exact Hu.
Qed.

Lemma on_install_done net w :
  (on_install net w).1
  = match fetch_all_ok net PRECACHE with Some _ => true | None => false end.
Proof.
  rewrite on_install_run. cbv zeta.
  destruct (fetch_all_ok net PRECACHE); reflexivity.
Qed.

Lemma put_all_lookup_other l c u : u ∉ l.*1 -> put_all l c !! u = c !! u.
Proof.
  intros Hu. rewrite put_all_union. apply lookup_union_r.
  apply not_elem_of_list_to_map_1. rewrite fmap_reverse, elem_of_reverse. exact Hu.
Qed.

Lemma put_all_lookup_in l c u r :
  NoDup l.*1 -> (u, r) ∈ l -> put_all l c !! u = Some r.
Proof.
  intros Hnd Hin. rewrite put_all_union. apply lookup_union_Some_l.
  apply elem_of_list_to_map.
  - rewrite fmap_reverse, reverse_Permutation. exact Hnd.
  - apply elem_of_reverse. exact Hin.
Qed.

Lemma put_all_keeps l c u : is_Some (c !! u) -> is_Some (put_all l c !! u).
Proof.
  intros Hc. apply elem_of_dom. rewrite put_all_dom.
  apply elem_of_union. right. apply elem_of_dom. exact Hc.
Qed.

(** X10: the install succeeds exactly when the network answers every URL
    of the precache list with a response that is [ok] and that a cache
    takes: one URL that fails, or that is answered with a status outside
    200-299, with a partial response (status 206) or with a response
    marked [Vary: *], fails the install. *)
Theorem install_succeeds_iff net w :
  (on_install net w).1 = true
  <-> (forall u, u ∈ PRECACHE ->
         exists r, net u = Some r /\ ok r = true
                   /\ status r ≠ 206%Z /\ "*" ∉ vary r).
Proof.
  rewrite on_install_done. split.
  - intros H u Hu.
    destruct (proj1 (fetch_all_ok_is_Some net PRECACHE)) with (u := u)
      as (r & Hn & Hok & Hc); [|exact Hu|].
    + destruct (fetch_all_ok net PRECACHE); [eauto | discriminate].
    + exists r. split; [exact Hn|]. split; [exact Hok|].
      apply cacheable_spec. exact Hc.
  - intros H.
    destruct (proj2 (fetch_all_ok_is_Some net PRECACHE)) as [l ->]; [|reflexivity].
    intros u Hu. destruct (H u Hu) as (r & Hn & Hok & Hc).
    exists r. split; [exact Hn|]. split; [exact Hok|].
    apply cacheable_spec. exact Hc.
Qed.

(** X11: a failed install stores nothing.  All six URLs have been
    requested and waiting is skipped all the same; the current cache has
    been opened (created empty, last, if it was not there) and every
    cache holds what it held, so [caches.match] finds what it found. *)
Theorem install_failure_stores_nothing net w :
  (on_install net w).1 = false ->
  let w' := (on_install net w).2 in
  caches w'
  = (if has_cache CACHE_NAME (caches w) then caches w
     else caches w ++ [(CACHE_NAME, ∅)]) /\
  (forall u, storage_match (caches w') u = storage_match (caches w) u) /\
  requested w' = requested w ++ PRECACHE /\
  skipped_waiting w' = true.
Proof.
  rewrite on_install_done. cbv zeta. intros Hf.
  assert (Hc : caches (on_install net w).2 = caches (caches_open CACHE_NAME w).2).
  { rewrite on_install_caches.
    destruct (fetch_all_ok net PRECACHE); [discriminate | reflexivity]. }
  split; [rewrite Hc; apply caches_open_caches|].
  split; [intros u; rewrite Hc; apply caches_open_match|].
  rewrite on_install_run. cbv zeta.
  destruct (fetch_all_ok net PRECACHE); [discriminate|]. cbn [snd requested skipped_waiting].
  rewrite caches_open_requested. split; reflexivity.
Qed.

(** X12: an install, successful or not, touches the current cache only
    and in it the precache URLs only: the caches of other names hold what
    they held, under every URL outside the precache list [caches.match]
    finds what it found, and the claim flag is untouched. *)
Theorem install_frame net w :
  let w' := (on_install net w).2 in
  (forall n c, n ≠ CACHE_NAME -> (n, c) ∈ caches w' <-> (n, c) ∈ caches w) /\
  (forall u, u ∉ PRECACHE ->
     storage_match (caches w') u = storage_match (caches w) u) /\
  claimed w' = claimed w.
Proof.
  cbv zeta. split; [|split].
  - intros n c Hn. rewrite on_install_caches.
    destruct (fetch_all_ok net PRECACHE) as [l|].
    + rewrite storage_update_other_elem by exact Hn.
      apply caches_open_other_elem. exact Hn.
    + apply caches_open_other_elem. exact Hn.
  - intros u Hu. rewrite on_install_caches.
    destruct (fetch_all_ok net PRECACHE) as [l|] eqn:El.
    + rewrite storage_update_match; [apply caches_open_match|].
      intros c. apply put_all_lookup_other.
      destruct (fetch_all_ok_Some _ _ _ El) as [-> _]. exact Hu.
    + apply caches_open_match.
  - rewrite on_install_run. cbv zeta.
    destruct (fetch_all_ok net PRECACHE); cbn [snd claimed with_caches];
      apply (caches_open_flags CACHE_NAME w).
Qed.

(** After a successful install the current cache holds, under every
    precache URL, the response the network just gave. *)
Lemma on_install_fresh_entries net w :
  (on_install net w).1 = true ->
  exists c, (CACHE_NAME, c) ∈ caches (on_install net w).2 /\
    forall u, u ∈ PRECACHE -> c !! u = net u.
Proof.
  rewrite on_install_done, on_install_caches.
  destruct (fetch_all_ok net PRECACHE) as [l|] eqn:El; [intros _|discriminate].
  destruct (fetch_all_ok_Some _ _ _ El) as [Hk Hl].
  destruct (storage_update_elem CACHE_NAME (put_all l)
              (caches (caches_open CACHE_NAME w).2) (caches_open_names _ _))
    as [c Hc].
  exists (put_all l c). split; [exact Hc|].
  intros u Hu. rewrite <- Hk in Hu.
  apply list_elem_of_fmap in Hu as [[u' r] [-> Hur]].
  rewrite Forall_forall in Hl. destruct (Hl _ Hur) as [Hn _].
  simpl in Hn. simpl. rewrite Hn.
  apply put_all_lookup_in; [|exact Hur].
  rewrite Hk. apply PRECACHE_NoDup.
Qed.

(** X13: a successful install refreshes the precache whatever the cache
    storage held before: the current cache then holds, under each of the
    six URLs, the response the network gave during this install. *)
Theorem install_refreshes_precache net w w' :
  on_install net w = (true, w') ->
  exists c, (CACHE_NAME, c) ∈ caches w' /\
    forall u, u ∈ PRECACHE -> c !! u = net u.
Proof.
  intros H.
  assert (H1 : (on_install net w).1 = true) by (rewrite H; reflexivity).
  assert (H2 : w' = (on_install net w).2) by (rewrite H; reflexivity).
  subst w'. apply on_install_fresh_entries. exact H1.
Qed.

End InstallFrame.

(** ** The activate listener: idempotence and the single cache *)

Section ActivateFrame.

Import ServiceWorker.

Implicit Types (w : World) (cs : CacheStorage) (n u : string).

Lemma on_activate_caches w :
  caches (on_activate w).2 = filter (fun e => e.1 = CACHE_NAME) (caches w).
Proof. rewrite on_activate_run. reflexivity. Qed.

Lemma filter_name_elem n cs m c :
  (m, c) ∈ filter (fun e => e.1 = n) cs <-> m = n /\ (m, c) ∈ cs.
Proof. rewrite list_elem_of_filter. reflexivity. Qed.

Lemma filter_name_NoDup n cs :
  NoDup cs.*1 -> NoDup (filter (fun e : string * gmap string Response => e.1 = n) cs).*1.
Proof.
  induction cs as [|[n0 c0] cs IH]; csimpl; intros Hnd; [constructor|].
  apply NoDup_cons in Hnd as [Hn0 Hnd].
  rewrite filter_cons. destruct (decide ((n0, c0).1 = n)); [|apply IH, Hnd].
  csimpl. apply NoDup_cons. split; [|apply IH, Hnd].
  intros Hin. apply Hn0.
  apply list_elem_of_fmap in Hin as [[m c] [-> Hin]].
  apply filter_name_elem in Hin as [_ Hin].
  apply list_elem_of_fmap. exists (m, c). split; [reflexivity | exact Hin].
Qed.

(** With unique names, keeping the caches of one name keeps at most one
    cache. *)
Lemma filter_name_unique n cs :
  NoDup cs.*1 ->
  ((n ∉ cs.*1) /\ filter (fun e : string * gmap string Response => e.1 = n) cs = [])
  \/ (exists c, (n, c) ∈ cs /\ filter (fun e => e.1 = n) cs = [(n, c)]).
Proof.
  induction cs as [|[n0 c0] cs IH]; csimpl; intros Hnd.
  - left. split; [apply not_elem_of_nil | reflexivity].
  - apply NoDup_cons in Hnd as [Hn0 Hnd]. rewrite filter_cons.
    destruct (decide ((n0, c0).1 = n)) as [E|E]; simpl in E.
    + subst n0. right. exists c0. split; [left|].
      destruct (IH Hnd) as [[_ ->] | [c [Hc _]]]; [reflexivity|].
      exfalso. apply Hn0. apply list_elem_of_fmap. exists (n, c). split; [reflexivity | exact Hc].
    + destruct (IH Hnd) as [[Hn ->] | [c [Hc ->]]].
      * left. split; [|reflexivity]. rewrite not_elem_of_cons. split; [congruence | exact Hn].
      * right. exists c. split; [right; exact Hc | reflexivity].
Qed.

(** X14: activation is idempotent: a second activation completes and
    leaves the world exactly as the first left it. *)
Theorem activate_idempotent w :
  on_activate (on_activate w).2 = (true, (on_activate w).2).
Proof.
  rewrite (on_activate_run (on_activate w).2), on_activate_run. cbn [snd].
  unfold clients_claim, with_caches.
  cbn [caches requested skipped_waiting claimed].
  rewrite list_filter_filter. do 3 f_equal.
  apply filter_ext_elem. intros x _. tauto.
Qed.

(** X15: cache names being unique, activation leaves at most one cache:
    none when there was no current cache, and otherwise the current cache
    alone, as it was.  What [caches.match] finds afterwards is what the
    current cache held: nothing is served from an older cache any more. *)
Theorem activate_leaves_single_cache w :
  NoDup (caches w).*1 ->
  let w' := (on_activate w).2 in
  (((CACHE_NAME ∉ (caches w).*1) /\ caches w' = [])
   \/ (exists c, (CACHE_NAME, c) ∈ caches w /\ caches w' = [(CACHE_NAME, c)])) /\
  (forall u r, storage_match (caches w') u = Some r ->
     exists c, (CACHE_NAME, c) ∈ caches w /\ c !! u = Some r).
Proof.
  intros Hnd. cbv zeta. rewrite on_activate_caches.
  destruct (filter_name_unique CACHE_NAME (caches w) Hnd) as [[Hn E] | [c [Hc E]]];
    rewrite E.
  - split; [left; split; [exact Hn | reflexivity]|]. intros u r H. discriminate.
  - split; [right; exists c; split; [exact Hc | reflexivity]|].
    intros u r H. simpl in H. exists c. split; [exact Hc|].
    destruct (c !! u); [exact H | discriminate].
Qed.

End ActivateFrame.

(** ** Sequences of events *)

Section Runs_of_events.

Import ServiceWorker.

Implicit Types (net : Network) (req : Request) (w : World) (e : Event)
  (es : list Event) (n u : string).

Lemma run_cons e es w : run (e :: es) w = run es (dispatch e w).
Proof. reflexivity. Qed.

(** The names of the caches after one event: as before, or with the
    current name added last, or the current name alone kept. *)
Lemma dispatch_names e w :
  (caches (dispatch e w)).*1 = (caches w).*1
  \/ ((CACHE_NAME ∉ (caches w).*1)
      /\ (caches (dispatch e w)).*1 = (caches w).*1 ++ [CACHE_NAME])
  \/ caches (dispatch e w) = filter (fun x => x.1 = CACHE_NAME) (caches w).
Proof.
  destruct e as [net| |net req]; cbn [dispatch].
  - assert (H : (caches (on_install net w).2).*1
                = (caches (caches_open CACHE_NAME w).2).*1).
    { rewrite on_install_caches. destruct (fetch_all_ok net PRECACHE);
        rewrite ?storage_update_names; reflexivity. }
    rewrite H. destruct (caches_open_names_cases CACHE_NAME w) as [E|E]; tauto.
  - right. right. apply on_activate_caches.
  - destruct (on_fetch_effect net req w) as [-> | [-> | (_ & _ & r & _ & ->)]];
      [left; reflexivity | left; reflexivity |].
    rewrite cache_put_caches.
    destruct (cacheable r); rewrite ?storage_update_names;
      destruct (caches_open_names_cases CACHE_NAME (with_request (url req) w)) as [E|E];
      tauto.
Qed.

(** X16: cache names stay unique: whatever events come, in whatever
    order, the worker never leaves two caches of the same name. *)
Theorem run_keeps_names_unique es w :
  NoDup (caches w).*1 -> NoDup (caches (run es w)).*1.
Proof.
  revert w. induction es as [|e es IH]; intros w Hnd; [exact Hnd|].
  rewrite run_cons. apply IH.
  destruct (dispatch_names e w) as [-> | [[Hn ->] | ->]].
  - exact Hnd.
  - apply NoDup_app. split; [exact Hnd|]. split.
    + intros x Hx Hx'. apply list_elem_of_singleton in Hx'. subst x. exact (Hn Hx).
    + apply NoDup_singleton.
  - apply filter_name_NoDup. exact Hnd.
Qed.

(** X17: the only cache the worker ever creates is the current one:
    after any events, a cache name in the storage was there before or is
    [railreach-v1]. *)
Theorem run_creates_only_current_cache es w n :
  n ∈ (caches (run es w)).*1 -> n ∈ (caches w).*1 \/ n = CACHE_NAME.
Proof.
  revert w. induction es as [|e es IH]; intros w Hn; [left; exact Hn|].
  rewrite run_cons in Hn. destruct (IH _ Hn) as [H|H]; [|right; exact H].
  destruct (dispatch_names e w) as [E | [[_ E] | E]]; rewrite E in H.
  - left. exact H.
  - apply elem_of_app in H as [H|H]; [left; exact H|].
    right. apply list_elem_of_singleton in H. exact H.
  - apply list_elem_of_fmap in H as [[m c] [-> H]].
    apply filter_name_elem in H as [H _]. right. exact H.
Qed.

(** What one event adds to the log of network requests. *)
Lemma dispatch_requested e w :
  exists us, requested (dispatch e w) = requested w ++ us /\
    forall u, u ∈ us ->
      u ∈ PRECACHE \/ exists net req, e = Fetch net req /\ url req = u.
Proof.
  destruct e as [net| |net req]; cbn [dispatch].
  - exists PRECACHE. split; [|intros u Hu; left; exact Hu].
    rewrite on_install_run. cbv zeta.
    destruct (fetch_all_ok net PRECACHE); cbn [snd requested with_caches];
      rewrite caches_open_requested; reflexivity.
  - exists []. split; [|intros u Hu; inversion Hu].
    rewrite on_activate_run. cbn [snd clients_claim requested with_caches].
    rewrite (right_id_L [] (++)). reflexivity.
  - destruct (on_fetch_effect net req w) as [-> | [-> | (_ & _ & r & _ & ->)]].
    + exists []. split; [rewrite (right_id_L [] (++)); reflexivity|].
      intros u Hu. inversion Hu.
    + exists [url req]. split; [reflexivity|].
      intros u Hu. apply list_elem_of_singleton in Hu. right. eauto.
    + exists [url req]. split; [rewrite cache_put_requested, caches_open_requested; reflexivity|].
      intros u Hu. apply list_elem_of_singleton in Hu. right. eauto.
Qed.

(** X18: the worker asks the network for nothing of its own: every URL
    requested during a sequence of events is a URL of the precache list
    or the URL of a request intercepted in that sequence. *)
Theorem run_requests_only_known_urls es w u :
  u ∈ requested (run es w) ->
  u ∈ requested w \/ u ∈ PRECACHE
  \/ exists net req, Fetch net req ∈ es /\ url req = u.
Proof.
  revert w. induction es as [|e es IH]; intros w Hu; [left; exact Hu|].
  rewrite run_cons in Hu. destruct (IH _ Hu) as [H | [H | (net & req & H & E)]].
  - destruct (dispatch_requested e w) as (us & Hus & Hk). rewrite Hus in H.
    apply elem_of_app in H as [H|H]; [left; exact H|].
    destruct (Hk u H) as [Hp | (net & req & -> & E)]; [right; left; exact Hp|].
    right. right. exists net, req. split; [left | exact E].
  - right. left. exact H.
  - right. right. exists net, req. split; [right; exact H | exact E].
Qed.

(** An entry of the current cache survives every event. *)
Lemma dispatch_precached e w u :
  precached u (caches w) -> precached u (caches (dispatch e w)).
Proof.
  unfold precached. intros Hp.
  destruct e as [net| |net req]; cbn [dispatch].
  - assert (Ho : exists c, (CACHE_NAME, c) ∈ caches (caches_open CACHE_NAME w).2
                   /\ is_Some (c !! u)).
    { destruct Hp as [c [Hc Hu]]. exists c. split; [apply caches_open_elem, Hc | exact Hu]. }
    rewrite on_install_caches. destruct (fetch_all_ok net PRECACHE) as [l|]; [|exact Ho].
    apply storage_update_keeps; [|exact Ho]. intros c. apply put_all_keeps.
  - destruct Hp as [c [Hc Hu]]. exists c. split; [|exact Hu].
    rewrite on_activate_caches. apply filter_name_elem. split; [reflexivity | exact Hc].
  - destruct (on_fetch_effect net req w) as [-> | [-> | (_ & _ & r & _ & ->)]];
      [exact Hp | exact Hp |].
    assert (Ho : exists c,
               (CACHE_NAME, c)
               ∈ caches (caches_open CACHE_NAME (with_request (url req) w)).2
               /\ is_Some (c !! u)).
    { destruct Hp as [c [Hc Hu]]. exists c.
      split; [apply caches_open_elem, Hc | exact Hu]. }
    rewrite cache_put_caches. destruct (cacheable r); [|exact Ho].
    apply storage_update_keeps; [|exact Ho].
    intros c Hc. apply lookup_insert_is_Some'. right. exact Hc.
Qed.

Lemma run_precached es w u :
  precached u (caches w) -> precached u (caches (run es w)).
Proof.
  revert w. induction es as [|e es IH]; intros w Hp; [exact Hp|].
  rewrite run_cons. apply IH, dispatch_precached, Hp.
Qed.

Lemma on_install_precached net w w1 u :
  on_install net w = (true, w1) -> u ∈ PRECACHE -> precached u (caches w1).
Proof.
  intros Hi Hu.
  assert (H1 : (on_install net w).1 = true) by (rewrite Hi; reflexivity).
  assert (H2 : w1 = (on_install net w).2) by (rewrite Hi; reflexivity).
  subst w1. destruct (on_install_fresh_entries net w H1) as [c [Hc Hl]].
  exists c. split; [exact Hc|]. rewrite (Hl u Hu).
  destruct (proj1 (fetch_all_ok_is_Some net PRECACHE)) with (u := u) as [r [-> _]];
    [|exact Hu|eauto].
  rewrite on_install_done in H1.
  destruct (fetch_all_ok net PRECACHE); [eauto | discriminate].
Qed.

Lemma precached_match u cs : precached u cs -> is_Some (storage_match cs u).
Proof. intros [c [Hc Hu]]. exact (storage_match_elem_is_Some _ _ _ _ Hc Hu). Qed.

(** X19: the precache is never lost.  Once an install has succeeded, each
    of the six URLs stays in the current cache through every later event:
    fetches, activations and further installs, failed ones included. *)
Theorem precache_persists net w w1 es u :
  on_install net w = (true, w1) ->
  u ∈ PRECACHE ->
  precached u (caches (run es w1)).
Proof.
  intros Hi Hu. apply run_precached. exact (on_install_precached net w w1 u Hi Hu).
Qed.

(** X20: once an install has succeeded, a navigation never fails: after
    any later events and whatever the network does, a document request to
    a host other than the tile provider is answered with a response. *)
Theorem navigation_never_fails_once_installed net w w1 es net' req :
  on_install net w = (true, w1) ->
  JsString.includes (hostname req) "tile.openstreetmap.org" = false ->
  destination req = "document" ->
  exists r, (on_fetch net' req (run es w1)).1 = Served r.
Proof.
  intros Hi Ht Hd.
  assert (Hroot : is_Some (storage_match (caches (run es w1)) "/")).
  { apply precached_match, run_precached.
    apply (on_install_precached net w w1 "/" Hi). left. }
  rewrite (on_fetch_document net' req Ht Hd), document_branch_run. cbn [fst].
  destruct (net' (url req)) as [r|]; [eauto|].
  destruct (storage_match (caches (run es w1)) (url req)) as [r|]; [eauto|].
  destruct Hroot as [r ->]. eauto.
Qed.


(** X22: only activation evicts.  An install or a fetch never removes a
    response: a URL under which [caches.match] found one before the event
    is a URL under which it finds one after. *)
Theorem only_activation_evicts e w u :
  e ≠ Activate ->
  is_Some (storage_match (caches w) u) ->
  is_Some (storage_match (caches (dispatch e w)) u).
Proof.
  intros He Hm. destruct e as [net| |net req]; [| congruence |]; cbn [dispatch].
  - assert (Ho : is_Some (storage_match (caches (caches_open CACHE_NAME w).2) u))
      by (rewrite caches_open_match; exact Hm).
    rewrite on_install_caches. destruct (fetch_all_ok net PRECACHE) as [l|]; [|exact Ho].
    apply storage_update_match_is_Some; [|exact Ho]. intros c. apply put_all_keeps.
  - destruct (on_fetch_effect net req w) as [-> | [-> | (_ & _ & r & _ & ->)]];
      [exact Hm | exact Hm |].
    assert (Ho : is_Some (storage_match
                            (caches (caches_open CACHE_NAME
                                       (with_request (url req) w)).2) u))
      by (rewrite caches_open_match; exact Hm).
    rewrite cache_put_caches. destruct (cacheable r); [|exact Ho].
    apply storage_update_match_is_Some; [|exact Ho].
    intros c Hc. apply lookup_insert_is_Some'. right. exact Hc.
Qed.

End Runs_of_events.

(** ** The further conditional properties, at sample inputs *)

Section FurtherInstances.

Import ServiceWorker Scenario.

Lemma installed_ok : on_install online fresh = (true, installed).
Proof. vm_compute. reflexivity. Defined.

Lemma browsing_names_unique : NoDup (caches browsing).*1.
Proof. refine (bool_decide_unpack (NoDup (caches browsing).*1) _). vm_compute. exact I. Defined.

(** X4 at a tile that is not cached, the network down. *)
Lemma tile_miss_network_failure_witness :
  on_fetch offline other_tile_request browsing
  = (NetworkError, with_request (url other_tile_request) browsing).
Proof.
  apply (tile_miss_network_failure offline other_tile_request browsing).
  - reflexivity.
  - vm_compute. reflexivity.
  - reflexivity.
Defined.

(** X5 at a page request, at a cached tile and at a tile with the network
    down. *)
Lemma fetch_writes_only_on_tile_refill_witness :
  caches (on_fetch online york_request browsing).2 = caches browsing /\
  caches (on_fetch online tile_request browsing).2 = caches browsing /\
  caches (on_fetch offline other_tile_request browsing).2 = caches browsing.
Proof.
  split; [|split].
  - apply (fetch_writes_only_on_tile_refill online york_request browsing).
    left. reflexivity.
  - apply (fetch_writes_only_on_tile_refill online tile_request browsing).
    right. left. exists tile. vm_compute. reflexivity.
  - apply (fetch_writes_only_on_tile_refill offline other_tile_request browsing).
    right. right. reflexivity.
Defined.

(** X8 at a page visited with the network up and asked again with the
    network down. *)
Lemma non_tile_fetch_leaves_no_trace_witness :
  (on_fetch offline york_request (on_fetch online york_request installed).2).1
  = (on_fetch offline york_request installed).1.
Proof.
  apply (non_tile_fetch_leaves_no_trace online york_request installed
           offline york_request).
  reflexivity.
Defined.

(** X9 at a page and at a stylesheet of the site. *)
Lemma non_tile_dispatch_witness :
  on_fetch online london_request = respondWith (document_branch online london_request) /\
  on_fetch online stylesheet_request = respondWith (asset_branch online stylesheet_request).
Proof.
  split.
  - apply (non_tile_dispatch online london_request).
    intros H. apply includes_spec in H. vm_compute in H. discriminate H.
  - apply (non_tile_dispatch online stylesheet_request).
    intros H. apply includes_spec in H. vm_compute in H. discriminate H.
Defined.

(** X11 at an install where the manifest is answered with a 404. *)
Lemma install_failure_stores_nothing_witness :
  (on_install manifest_missing browsing).1 = false /\
  let w' := (on_install manifest_missing browsing).2 in
  caches w'
  = (if has_cache CACHE_NAME (caches browsing) then caches browsing
     else caches browsing ++ [(CACHE_NAME, ∅)]) /\
  (forall u, storage_match (caches w') u = storage_match (caches browsing) u) /\
  requested w' = requested browsing ++ PRECACHE /\
  skipped_waiting w' = true.
Proof.
  assert (H : (on_install manifest_missing browsing).1 = false)
    by (vm_compute; reflexivity).
  split; [exact H|].
  exact (install_failure_stores_nothing manifest_missing browsing H).
Defined.

(** X13 at an install over a cache storage in use. *)
Lemma install_refreshes_precache_witness :
  on_install online browsing = (true, (on_install online browsing).2) /\
  exists c, (CACHE_NAME, c) ∈ caches (on_install online browsing).2 /\
    forall u, u ∈ PRECACHE -> c !! u = online u.
Proof.
  assert (H : on_install online browsing = (true, (on_install online browsing).2))
    by (vm_compute; reflexivity).
  split; [exact H|].
  exact (install_refreshes_precache online browsing _ H).
Defined.

(** X15 at a storage with the cache of an older version. *)
Lemma activate_leaves_single_cache_witness :
  NoDup (caches browsing).*1 /\
  let w' := (on_activate browsing).2 in
  (((CACHE_NAME ∉ (caches browsing).*1) /\ caches w' = [])
   \/ (exists c, (CACHE_NAME, c) ∈ caches browsing /\ caches w' = [(CACHE_NAME, c)])) /\
  (forall u r, storage_match (caches w') u = Some r ->
     exists c, (CACHE_NAME, c) ∈ caches browsing /\ c !! u = Some r).
Proof.
  split; [exact browsing_names_unique|].
  exact (activate_leaves_single_cache browsing browsing_names_unique).
Defined.

(** X16 over an evening of use. *)
Lemma run_keeps_names_unique_witness :
  NoDup (caches browsing).*1 /\ NoDup (caches (run evening browsing)).*1.
Proof.
  split; [exact browsing_names_unique|].
  exact (run_keeps_names_unique evening browsing browsing_names_unique).
Defined.

(** X17 over an evening of use from an empty storage: the one cache
    there is the current one. *)
Lemma run_creates_only_current_cache_witness :
  "railreach-v1" ∈ (caches (run evening fresh)).*1 /\
  ("railreach-v1" ∈ (caches fresh).*1 \/ "railreach-v1" = CACHE_NAME).
Proof.
  assert (H : "railreach-v1" ∈ (caches (run evening fresh)).*1).
  { refine (bool_decide_unpack _ _). vm_compute. exact I. }
  split; [exact H|].
  exact (run_creates_only_current_cache evening fresh "railreach-v1" H).
Defined.

(** X18 over an evening of use: the page asked for at the end. *)
Lemma run_requests_only_known_urls_witness :
  "/york/" ∈ requested (run evening installed) /\
  ("/york/" ∈ requested installed \/ "/york/" ∈ PRECACHE
   \/ exists net req, Fetch net req ∈ evening /\ url req = "/york/").
Proof.
  assert (H : "/york/" ∈ requested (run evening installed)).
  { refine (bool_decide_unpack _ _). vm_compute. exact I. }
  split; [exact H|].
  exact (run_requests_only_known_urls evening installed "/york/" H).
Defined.

(** X19, X20 and X21 after the first install and an evening of use. *)
Lemma precache_persists_witness :
  on_install online fresh = (true, installed) /\
  precached "/manifest.json" (caches (run evening installed)).
Proof.
  split; [exact installed_ok|].
  apply (precache_persists online fresh installed evening "/manifest.json" installed_ok).
  refine (bool_decide_unpack _ _). vm_compute. exact I.
Defined.

Lemma navigation_never_fails_once_installed_witness :
  exists r, (on_fetch offline york_request (run evening installed)).1 = Served r.
Proof.
  apply (navigation_never_fails_once_installed online fresh installed evening
           offline york_request installed_ok); reflexivity.
Defined.


(** X22 at a failed update and at a tile refill over a storage in use. *)
Lemma only_activation_evicts_witness :
  is_Some (storage_match (caches (dispatch (Install unavailable) browsing)) "/london/") /\
  is_Some (storage_match
             (caches (dispatch (Fetch online other_tile_request) browsing)) "/london/").
Proof.
  assert (H : is_Some (storage_match (caches browsing) "/london/"))
    by (exists london; vm_compute; reflexivity).
  split.
  - apply (only_activation_evicts (Install unavailable) browsing "/london/");
      [discriminate | exact H].
  - apply (only_activation_evicts (Fetch online other_tile_request) browsing "/london/");
      [discriminate | exact H].
Defined.

End FurtherInstances.
